(** * cnabRows: fixed-width CNAB record lookup, search and JSON export

    A shallow embedding of [src/cnabRows.js].

    - A JavaScript string is the list of its code units.  The model keeps
      the code units below 256 ([ascii]), which covers the ASCII and
      Latin-1 content of a CNAB remittance file; an array is a [list].
    - Positions ([from], [to], the offsets of [CNAB_POSITIONS]) are
      integers ([Z]); the built-ins clamp them as ECMAScript does.
    - [console.log], [console.error], [fs.readFile] and [fs.writeFile]
      act on an explicit [World]; a function that may throw returns an
      [Outcome].
    - [chalk] styling is kept as a tag on the styled piece of text.
    - [String.prototype.toUpperCase] is a parameter of the program. *)

From Stdlib Require Import String Ascii ZArith Lia Bool List.
Import ListNotations.

Set Implicit Arguments.

(** ** Strings *)

Abbreviation jstring := (list ascii) (only parsing).

Definition str (s : string) : jstring := list_ascii_of_string s.
Arguments str s%_string.

Definition jstring_eqb (s t : jstring) : bool :=
  if list_eq_dec ascii_dec s t then true else false.

(** ** The ECMAScript built-ins the program calls *)

Module JS.

(** [clamp(ToIntegerOrInfinity(i), 0, len)]. *)
Definition clampIndex (i : Z) (len : nat) : nat :=
  Nat.min (Z.to_nat i) len.

(** The relative index of [slice]: a negative [i] counts from the end. *)
Definition relIndex (i : Z) (len : nat) : nat :=
  if (i <? 0)%Z then Z.to_nat (Z.max (Z.of_nat len + i) 0)
  else Nat.min (Z.to_nat i) len.

(** [String.prototype.substring(start, end)]: both bounds are clamped to
    [0, len] and SWAPPED when [start > end]; [end] absent means [len]. *)
Definition substring (s : jstring) (start : Z) (end_ : option Z) : jstring :=
  let len := length s in
  let intStart := clampIndex start len in
  let intEnd := match end_ with
                | None => len
                | Some e => clampIndex e len
                end in
  let from := Nat.min intStart intEnd in
  let to := Nat.max intStart intEnd in
  firstn (to - from) (skipn from s).

(** [String.prototype.slice(start, end)] and [Array.prototype.slice]:
    relative bounds, empty when the bounds cross. *)
Definition slice {A : Type} (l : list A) (start : Z) (end_ : option Z)
  : list A :=
  let len := length l in
  let from := relIndex start len in
  let to := match end_ with
            | None => len
            | Some e => relIndex e len
            end in
  firstn (to - from) (skipn from l).

(** [s[i]]: the one-code-unit string at [i], or [undefined]. *)
Definition index (s : jstring) (i : Z) : option ascii :=
  if (i <? 0)%Z then None else nth_error s (Z.to_nat i).

(** [s[i] === t] for a string [t]. *)
Definition indexEq (s : jstring) (i : Z) (t : jstring) : bool :=
  match index s i with
  | Some c => jstring_eqb [c] t
  | None => false
  end.

(** WhiteSpace and LineTerminator code units below 256:
    TAB, LF, VT, FF, CR, SP, NBSP. *)
Definition isWhiteSpace (c : ascii) : bool :=
  let n := nat_of_ascii c in
  (n =? 9) || (n =? 10) || (n =? 11) || (n =? 12) || (n =? 13)
  || (n =? 32) || (n =? 160).

Fixpoint trimStart (s : jstring) : jstring :=
  match s with
  | [] => []
  | c :: s' => if isWhiteSpace c then trimStart s' else s
  end.

Definition trimEnd (s : jstring) : jstring := rev (trimStart (rev s)).

(** [String.prototype.trim]. *)
Definition trim (s : jstring) : jstring := trimEnd (trimStart s).

Fixpoint startsWith (s p : jstring) {struct p} : bool :=
  match p, s with
  | [], _ => true
  | _ :: _, [] => false
  | a :: p', b :: s' => Ascii.eqb a b && startsWith s' p'
  end.

(** [String.prototype.includes]. *)
Fixpoint includes (s p : jstring) : bool :=
  startsWith s p ||
  match s with
  | [] => false
  | _ :: s' => includes s' p
  end.

(** [String.prototype.split] with a one-code-unit separator. *)
Fixpoint split (s : jstring) (sep : ascii) : list jstring :=
  match s with
  | [] => [[]]
  | c :: s' =>
      if Ascii.eqb c sep then [] :: split s' sep
      else match split s' sep with
           | h :: t => (c :: h) :: t
           | [] => [[c]]
           end
  end.

(** [Array.prototype.join], on strings and on styled texts alike. *)
Fixpoint join {A : Type} (parts : list (list A)) (sep : list A) : list A :=
  match parts with
  | [] => []
  | [p] => p
  | p :: rest => p ++ sep ++ join rest sep
  end.

(** Truthiness of a string and of a number. *)
Definition truthyString (s : jstring) : bool :=
  match s with [] => false | _ :: _ => true end.

Definition truthyNumber (z : Z) : bool := negb (z =? 0)%Z.

End JS.

(** ** Styled text

    A template literal is the list of its pieces; [chalk.<style>(x)] is the
    piece [Chalk style x], where [x] is a string or a number. *)

Inductive Style : Type := inverse_bgBlack | yellow | green | red.

Inductive Atom : Type :=
| Str (s : jstring)
| Num (z : Z).

Inductive Chunk : Type :=
| Plain (a : Atom)
| Chalk (st : Style) (a : Atom).

Definition Text := list Chunk.

Definition lit (s : string) : Chunk := Plain (Str (str s)).
Arguments lit s%_string.

Definition nl : ascii := "010"%char.

Definition NL : Chunk := Plain (Str [nl]).

(** ** JSON values handed to [JSON.stringify] *)

#[warnings="-register-all"] Inductive json : Type :=
| JNumber (z : Z)
| JString (s : jstring)
| JArray (items : list json)
| JObject (members : list (string * json)).

(** ** The world: console, file system *)

Inductive Outcome (A : Type) : Type :=
| Return (a : A)
| Throw (message : jstring).
Arguments Return {A} a.
Arguments Throw {A} message.

Inductive LogEntry : Type :=
| Out (t : Text)                 (* console.log(t) *)
| Err (args : list Text).        (* console.error(...args) *)

Record World : Type := {
  console : list LogEntry;
  (* what fs.readFile(path, 'utf8') resolves or rejects with *)
  readable : jstring -> Outcome jstring;
  (* the error fs.writeFile(path, ...) rejects with, if any *)
  unwritable : jstring -> option jstring;
  (* files written so far, latest first *)
  written : list (jstring * json)
}.

Definition IO (A : Type) : Type := World -> Outcome A * World.

Definition ret {A : Type} (a : A) : IO A := fun w => (Return a, w).

Definition bind {A B : Type} (m : IO A) (k : A -> IO B) : IO B :=
  fun w =>
    match m w with
    | (Return a, w') => k a w'
    | (Throw e, w') => (Throw e, w')
    end.

Notation "x <- m ;; k" := (bind m (fun x => k))
  (at level 61, m at next level, right associativity).
Notation "m ;;; k" := (bind m (fun _ => k))
  (at level 61, right associativity).

(** [try { body } catch (error) { handler(error.message) }]. *)
Definition tryCatch {A : Type} (body : IO A) (handler : jstring -> IO A)
  : IO A :=
  fun w =>
    match body w with
    | (Return a, w') => (Return a, w')
    | (Throw e, w') => handler e w'
    end.

Definition appendConsole (w : World) (entries : list LogEntry) : World :=
  {| console := console w ++ entries;
     readable := readable w;
     unwritable := unwritable w;
     written := written w |}.

Definition recordWrite (w : World) (path : jstring) (data : json) : World :=
  {| console := console w;
     readable := readable w;
     unwritable := unwritable w;
     written := (path, data) :: written w |}.

Definition emit (e : LogEntry) : IO unit :=
  fun w => (Return tt, appendConsole w [e]).

Definition log (t : Text) : IO unit := emit (Out t).

Definition console_error (args : list Text) : IO unit := emit (Err args).

Definition fs_readFile (path : jstring) : IO jstring :=
  fun w => (readable w path, w).

Definition fs_writeFile (path : jstring) (data : json) : IO unit :=
  fun w =>
    match unwritable w path with
    | Some e => (Throw e, w)
    | None => (Return tt, recordWrite w path data)
    end.

Definition when (b : bool) (m : IO unit) : IO unit :=
  if b then m else ret tt.

Fixpoint forEach {A : Type} (l : list A) (f : A -> IO unit) : IO unit :=
  match l with
  | [] => ret tt
  | a :: l' => f a ;;; forEach l' f
  end.

(** ** The program *)

Local Open Scope Z_scope.

Record Range : Type := { START : Z; END : Z }.

Record Positions : Type := {
  SEGMENT_INDEX : Z;
  COMPANY_NAME : Range;
  ADDRESS : Range;
  DISTRICT : Range;
  ZIP : Range;
  CITY : Range;
  STATE : Range
}.

Definition CNAB_POSITIONS : Positions :=
  {| SEGMENT_INDEX := 13;
     COMPANY_NAME := {| START := 33; END := 73 |};
     ADDRESS := {| START := 73; END := 113 |};
     DISTRICT := {| START := 113; END := 128 |};
     ZIP := {| START := 128; END := 136 |};
     CITY := {| START := 136; END := 151 |};
     STATE := {| START := 151; END := 154 |} |}.

(** [(arr, ...positions) => [...arr].slice(...positions)]. *)
Definition sliceArrayPosition {A : Type} (arr : list A) (positions : list Z)
  : list A :=
  match positions with
  | [] => JS.slice arr 0 None
  | [a] => JS.slice arr a None
  | a :: b :: _ => JS.slice arr a (Some b)
  end.

(** The word "posicao" as the source spells it, with c-cedilla (231) and
    a-tilde (227). *)
Definition posicao : Chunk :=
  Plain (Str (str "posi" ++ ["231"%char; "227"%char] ++ str "o")).

Definition messageLog (segmento segmentoType : jstring) (from to : Z)
    (caminho : option jstring) : Text :=
  [ NL;
    lit "----- Cnab linha "; Plain (Str segmentoType); lit " -----"; NL;
    NL;
    posicao; lit " from: "; Chalk inverse_bgBlack (Num from); NL;
    NL;
    posicao; lit " to: "; Chalk inverse_bgBlack (Num to); NL;
    NL;
    lit "item isolado: ";
    Chalk inverse_bgBlack (Str (JS.substring segmento (from - 1) (Some to)));
    NL;
    NL;
    lit "item dentro da linha "; Plain (Str segmentoType); lit ": "; NL;
    lit "  ";
    Plain (Str (JS.substring segmento 0 (Some (from - 1))));
    Chalk inverse_bgBlack (Str (JS.substring segmento (from - 1) (Some to)));
    Plain (Str (JS.substring segmento to None)); NL;
    NL;
    lit "----- FIM ------"; NL ].

Definition segmentMessageLog (segmentos : list jstring)
    (segmentoType : jstring) (from to : Z) : Text :=
  [ NL;
    lit "----- Cnab segmento "; Plain (Str segmentoType); lit " -----"; NL ]
  ++ JS.join
       (map (fun segmento =>
               [ Plain (Str (JS.substring segmento 0 (Some (from - 1))));
                 Chalk inverse_bgBlack
                   (Str (JS.substring segmento (from - 1) (Some to)));
                 Plain (Str (JS.substring segmento to None)) ])
            segmentos)
       [NL]
  ++ [ NL; lit "----- FIM ------"; NL ].

(** One extracted field: [{ value, from, to }]. *)
Record Field : Type := { value : jstring; from : Z; to : Z }.

(** An object literal, as its properties in insertion order. *)
Definition Obj (V : Type) : Type := list (string * V).

Definition parseCnabQSegmentLine (line : jstring) : Obj Field :=
  [ ("nome"%string,
     {| value := JS.trim (JS.slice line (START (COMPANY_NAME CNAB_POSITIONS))
                            (Some (END (COMPANY_NAME CNAB_POSITIONS))));
        from := START (COMPANY_NAME CNAB_POSITIONS);
        to := END (COMPANY_NAME CNAB_POSITIONS) |});
    ("endereco"%string,
     {| value := JS.trim (JS.slice line (START (ADDRESS CNAB_POSITIONS))
                            (Some (END (ADDRESS CNAB_POSITIONS))));
        from := START (ADDRESS CNAB_POSITIONS);
        to := END (ADDRESS CNAB_POSITIONS) |});
    ("bairro"%string,
     {| value := JS.trim (JS.slice line (START (DISTRICT CNAB_POSITIONS))
                            (Some (END (DISTRICT CNAB_POSITIONS))));
        from := START (DISTRICT CNAB_POSITIONS);
        to := END (DISTRICT CNAB_POSITIONS) |});
    ("cep"%string,
     {| value := JS.slice line (START (ZIP CNAB_POSITIONS))
                   (Some (END (ZIP CNAB_POSITIONS)));
        from := START (ZIP CNAB_POSITIONS);
        to := END (ZIP CNAB_POSITIONS) |});
    ("cidade"%string,
     {| value := JS.trim (JS.slice line (START (CITY CNAB_POSITIONS))
                            (Some (END (CITY CNAB_POSITIONS))));
        from := START (CITY CNAB_POSITIONS);
        to := END (CITY CNAB_POSITIONS) |});
    ("estado"%string,
     {| value := JS.slice line (START (STATE CNAB_POSITIONS))
                   (Some (END (STATE CNAB_POSITIONS)));
        from := START (STATE CNAB_POSITIONS);
        to := END (STATE CNAB_POSITIONS) |}) ].

(** The value [JSON.stringify(parsedData, null, 2)] renders: an array of
    objects whose members are [{ value, from, to }] objects. *)
Definition jsonOfField (f : Field) : json :=
  JObject [ ("value"%string, JString (value f));
            ("from"%string, JNumber (from f));
            ("to"%string, JNumber (to f)) ].

Definition jsonOfObj (o : Obj Field) : json :=
  JObject (map (fun kv => (fst kv, jsonOfField (snd kv))) o).

Definition jsonOfParsedData (parsedData : list (Obj Field)) : json :=
  JArray (map jsonOfObj parsedData).

Definition exportToJson (data : list jstring) (outPath : jstring)
  : IO jstring :=
  let parsedData := map (fun line => parseCnabQSegmentLine line) data in
  fs_writeFile outPath (jsonOfParsedData parsedData) ;;;
  ret (str "Arquivo JSON exportado para: " ++ outPath).

Record Document : Type := {
  full : list jstring;
  header : list jstring;
  body : list jstring;
  tail : list jstring
}.

Definition readCnabFile (filePath : jstring) : IO Document :=
  file <- fs_readFile filePath ;;
  let cnabArray := JS.split file nl in
  ret {| full := cnabArray;
         header := sliceArrayPosition cnabArray [0; 2];
         body := sliceArrayPosition cnabArray [2; -2];
         tail := sliceArrayPosition cnabArray [-2] |}.

Definition noLineFound : Text :=
  [ Chalk yellow
      (Str (str "Nenhuma linha encontrada para o tipo de segmento informado.")) ].

Definition noSegmentFound : Text :=
  [ Chalk yellow (Str (str "Nenhum segmento encontrado.")) ].

Definition noCompanyFound : Text :=
  [ Chalk yellow (Str (str "Nenhuma empresa encontrada com esse nome.")) ].

Definition searchSegmentPositions (cnabBody : list jstring)
    (segmentoType : jstring) (from to : Z) (arquivoPath : option jstring)
  : IO unit :=
  let register :=
    find (fun line =>
            JS.indexEq line (SEGMENT_INDEX CNAB_POSITIONS) segmentoType)
         cnabBody in
  match register with
  | Some line =>
      if JS.truthyString line
      then log (messageLog line segmentoType from to arquivoPath)
      else log noLineFound
  | None => log noLineFound
  end.

Definition searchBySegmentType (cnabBody : list jstring)
    (segmentoType : jstring) : IO unit :=
  let foundSegment :=
    filter (fun line =>
              JS.indexEq line (SEGMENT_INDEX CNAB_POSITIONS) segmentoType)
           cnabBody in
  if JS.truthyNumber (Z.of_nat (length foundSegment))
  then log (segmentMessageLog foundSegment segmentoType
              (SEGMENT_INDEX CNAB_POSITIONS + 1)
              (SEGMENT_INDEX CNAB_POSITIONS + 1))
  else log noSegmentFound.

Definition exportToJsonFile (cnabArray : list jstring) (jsonPath : jstring)
  : IO unit :=
  tryCatch
    (let data :=
       filter (fun line =>
                 JS.indexEq line (SEGMENT_INDEX CNAB_POSITIONS) (str "Q"))
              cnabArray in
     result <- exportToJson data jsonPath ;;
     log [Chalk green (Str result)])
    (fun message =>
       console_error [ [Chalk red (Str (str "Erro ao exportar para JSON:"))];
                       [Plain (Str message)] ]).

Module Options.
(** What yargs hands over; an absent option is [undefined]. *)
Record t : Type := {
  from : option Z;
  to : option Z;
  segmento : option jstring;
  buscar : bool;
  nome : option jstring;
  json : option jstring;
  arquivo : option jstring
}.
End Options.

Section Program.

(** [String.prototype.toUpperCase], supplied by the runtime. *)
Variable toUpperCase : jstring -> jstring.

Definition searchByCompanyName (cnabBody : list jstring)
    (companyName : jstring) (arquivoPath : option jstring) : IO unit :=
  let foundCompanies :=
    filter (fun line =>
              JS.indexEq line (SEGMENT_INDEX CNAB_POSITIONS) (str "Q")
              && JS.includes
                   (JS.slice line (START (COMPANY_NAME CNAB_POSITIONS))
                      (Some (END (COMPANY_NAME CNAB_POSITIONS))))
                   (toUpperCase companyName))
           cnabBody in
  forEach foundCompanies (fun line =>
    let endIndex :=
      length (JS.trim
                (JS.slice line (START (COMPANY_NAME CNAB_POSITIONS))
                   (Some (END (COMPANY_NAME CNAB_POSITIONS))))) in
    log (messageLog line (str "Q")
           (START (COMPANY_NAME CNAB_POSITIONS) + 1)
           (START (COMPANY_NAME CNAB_POSITIONS) + Z.of_nat endIndex)
           arquivoPath)) ;;;
  when (length foundCompanies =? 0)%nat (log noCompanyFound).

Definition processCommandArguments (options : Options.t)
    (cnabData : Document) : IO unit :=
  let segmento := Options.segmento options in
  let nome := Options.nome options in
  let json := Options.json options in
  let arquivo := Options.arquivo options in
  (match Options.from options, Options.to options, segmento with
   | Some from, Some to, Some s =>
       when (JS.truthyNumber from && JS.truthyNumber to
             && JS.truthyString s)
            (searchSegmentPositions (body cnabData) (toUpperCase s)
               from to arquivo)
   | _, _, _ => ret tt
   end) ;;;
  when (Options.buscar options)
    ((match segmento with
      | Some s =>
          when (JS.truthyString s)
               (searchBySegmentType (body cnabData) (toUpperCase s))
      | None => ret tt
      end) ;;;
     (match nome with
      | Some n =>
          when (JS.truthyString n)
               (searchByCompanyName (body cnabData) n arquivo)
      | None => ret tt
      end)) ;;;
  (match json with
   | Some j => when (JS.truthyString j) (exportToJsonFile (full cnabData) j)
   | None => ret tt
   end).

End Program.

(** ASCII upper-casing: what [toUpperCase] does on an ASCII string. *)
Definition asciiUpperChar (c : ascii) : ascii :=
  let n := nat_of_ascii c in
  if ((97 <=? n) && (n <=? 122))%nat then ascii_of_nat (n - 32) else c.

Definition asciiUpper (s : jstring) : jstring := map asciiUpperChar s.

(** ** Vocabulary of the specification *)

(** The elements of [l] whose 0-based index lies in the half-open interval
    [a, b): empty when [b <= a], cut at the ends of [l]. *)
Definition range {A : Type} (a b : Z) (l : list A) : list A :=
  firstn (Z.to_nat b - Z.to_nat a) (skipn (Z.to_nat a) l).

(** The part of [l] from index [a] to its end. *)
Definition rangeFrom {A : Type} (a : Z) (l : list A) : list A :=
  skipn (Z.to_nat a) l.

(** The segment discriminator of a line: its code unit at index 13. *)
Definition discriminator (line : jstring) : option ascii :=
  nth_error line 13.

(** [line] carries the segment type [segmentType]. *)
Definition hasSegment (segmentType : jstring) (line : jstring) : bool :=
  match discriminator line with
  | Some c => jstring_eqb [c] segmentType
  | None => false
  end.

(** [p] occurs in [s]. *)
Definition contains (s p : jstring) : Prop :=
  exists l r, s = l ++ p ++ r.

Definition allWhiteSpace (s : jstring) : Prop :=
  Forall (fun c => JS.isWhiteSpace c = true) s.

Definition noWhiteSpaceAtEnds (s : jstring) : Prop :=
  (forall c s', s = c :: s' -> JS.isWhiteSpace c = false) /\
  (forall c s', s = s' ++ [c] -> JS.isWhiteSpace c = false).

(** [t] is [s] without its leading and trailing white space. *)
Definition trimmedOf (t s : jstring) : Prop :=
  noWhiteSpaceAtEnds t /\
  exists l r, s = l ++ t ++ r /\ allWhiteSpace l /\ allWhiteSpace r.

(** The report of one line: segment type, the two positions, the isolated
    item, and the line as prefix, highlighted span and suffix. *)
Definition lineReport (segmentType : jstring) (from to : Z)
    (isolated prefix highlighted suffix : jstring) : Text :=
  [ NL;
    lit "----- Cnab linha "; Plain (Str segmentType); lit " -----"; NL;
    NL;
    posicao; lit " from: "; Chalk inverse_bgBlack (Num from); NL;
    NL;
    posicao; lit " to: "; Chalk inverse_bgBlack (Num to); NL;
    NL;
    lit "item isolado: "; Chalk inverse_bgBlack (Str isolated); NL;
    NL;
    lit "item dentro da linha "; Plain (Str segmentType); lit ": "; NL;
    lit "  ";
    Plain (Str prefix); Chalk inverse_bgBlack (Str highlighted);
    Plain (Str suffix); NL;
    NL;
    lit "----- FIM ------"; NL ].

(** One line of a segment listing: prefix, highlighted span, suffix. *)
Definition listedLine (prefix highlighted suffix : jstring) : Text :=
  [ Plain (Str prefix); Chalk inverse_bgBlack (Str highlighted);
    Plain (Str suffix) ].

Definition segmentReport (segmentType : jstring) (lines : list Text) : Text :=
  [ NL;
    lit "----- Cnab segmento "; Plain (Str segmentType); lit " -----"; NL ]
  ++ JS.join lines [NL]
  ++ [ NL; lit "----- FIM ------"; NL ].

(** The Q offset table as a list, in the order of the source. *)
Definition qOffsetTable : list (string * Range) :=
  [ ("nome"%string, COMPANY_NAME CNAB_POSITIONS);
    ("endereco"%string, ADDRESS CNAB_POSITIONS);
    ("bairro"%string, DISTRICT CNAB_POSITIONS);
    ("cep"%string, ZIP CNAB_POSITIONS);
    ("cidade"%string, CITY CNAB_POSITIONS);
    ("estado"%string, STATE CNAB_POSITIONS) ].

(** The export report on success. *)
Definition exportedMessage (outPath : jstring) : Text :=
  [ Chalk green (Str (str "Arquivo JSON exportado para: " ++ outPath)) ].

Definition exportFailed (message : jstring) : list Text :=
  [ [Chalk red (Str (str "Erro ao exportar para JSON:"))];
    [Plain (Str message)] ].

(** A world with an empty console and an empty, writable disk. *)
Definition emptyWorld : World :=
  {| console := [];
     readable := fun _ => Throw (str "ENOENT");
     unwritable := fun _ => None;
     written := [] |}.

(** A line of dots with [c] at index 13 and [field] from index 33 on. *)
Definition sampleLine (c : ascii) (field : jstring) : jstring :=
  repeat "."%char 13 ++ [c] ++ repeat "."%char 19 ++ field.

Definition pad (s : jstring) (width : nat) : jstring :=
  s ++ repeat " "%char (width - length s).

(** The span highlighted for the positions [from] and [to]: the range
    [from - 1, to) when the two are in order, the range [to, from - 1) when
    they cross. *)
Definition highlightedSpan (from to : Z) (line : jstring) : jstring :=
  if from - 1 <=? to then range (from - 1) to line
  else range to (from - 1) line.

(** The report of a positional lookup on [line]. *)
Definition positionReport (segmentType : jstring) (from to : Z)
    (line : jstring) : Text :=
  lineReport segmentType from to
    (highlightedSpan from to line)
    (range 0 (from - 1) line)
    (highlightedSpan from to line)
    (rangeFrom to line).

(** The company-name field of a line and the length of its trimmed value. *)
Definition companyField (line : jstring) : jstring := range 33 73 line.

Definition trimmedNameLength (line : jstring) : nat :=
  length (JS.trim (companyField line)).

(** The report of a company-name match: 1-based from 34, to
    33 + trimmed length, the span [33, 33 + trimmed length) highlighted. *)
Definition companyReport (line : jstring) : Text :=
  let to := 33 + Z.of_nat (trimmedNameLength line) in
  lineReport (str "Q") 34 to
    (range 33 to line) (range 0 33 line) (range 33 to line)
    (rangeFrom to line).

(** The lines a company-name search selects, given the upper-cased
    pattern. *)
Definition companyMatches (pattern : jstring) (body : list jstring)
  : list jstring :=
  filter (fun line =>
            hasSegment (str "Q") line
            && JS.includes (companyField line) pattern)
         body.

(** The segment listing of the selected lines: index 13 highlighted. *)
Definition listingReport (segmentType : jstring) (found : list jstring)
  : Text :=
  segmentReport segmentType
    (map (fun line =>
            listedLine (range 0 13 line) (range 13 14 line)
              (rangeFrom 14 line))
         found).

(** The six fields of a line, by the ranges of the Q offset table. *)
Definition qFields (line : jstring) : Obj Field :=
  [ ("nome"%string,
     {| value := JS.trim (range 33 73 line); from := 33; to := 73 |});
    ("endereco"%string,
     {| value := JS.trim (range 73 113 line); from := 73; to := 113 |});
    ("bairro"%string,
     {| value := JS.trim (range 113 128 line); from := 113; to := 128 |});
    ("cep"%string,
     {| value := range 128 136 line; from := 128; to := 136 |});
    ("cidade"%string,
     {| value := JS.trim (range 136 151 line); from := 136; to := 151 |});
    ("estado"%string,
     {| value := range 151 154 line; from := 151; to := 154 |}) ].

(** What an export of [lines] writes: one entry per line carrying "Q". *)
Definition exportedEntries (lines : list jstring) : list (Obj Field) :=
  map parseCnabQSegmentLine (filter (hasSegment (str "Q")) lines).

(** The world after an export of [lines] to [path]. *)
Definition afterExport (lines : list jstring) (path : jstring) (w : World)
  : World :=
  match unwritable w path with
  | None =>
      appendConsole
        (recordWrite w path (jsonOfParsedData (exportedEntries lines)))
        [Out (exportedMessage path)]
  | Some e => appendConsole w [Err (exportFailed e)]
  end.

(** The ranges of the Q offset table, in order. *)
Definition qRanges : list Range := map snd qOffsetTable.

Definition bounds (r : Range) : Z * Z := (START r, END r).

(** [i] lies in the half-open range [r]. *)
Definition covers (r : Range) (i : Z) : Prop := START r <= i < END r.

(** Each range ends where the next one starts. *)
Fixpoint contiguous (rs : list Range) : Prop :=
  match rs with
  | r :: (r' :: _) as rest => END r = START r' /\ contiguous rest
  | _ => True
  end.

Definition disjoint (r r' : Range) : Prop :=
  forall i, ~ (covers r i /\ covers r' i).

(** The names and the ranges of an extracted field set. *)
Definition fieldNames (o : Obj Field) : list string := map fst o.

Definition fieldRanges (o : Obj Field) : list (Z * Z) :=
  map (fun kv => (from (snd kv), to (snd kv))) o.

Definition fieldValues (o : Obj Field) : list jstring :=
  map (fun kv => value (snd kv)) o.

Definition qNames : list string :=
  [ "nome"; "endereco"; "bairro"; "cep"; "cidade"; "estado" ]%string.

(** A line holds no newline. *)
Definition noNewline (line : jstring) : Prop := ~ In nl line.

(** ** Sample inputs *)

(** A world whose every path reads as [contents]. *)
Definition worldWithFile (contents : jstring) : World :=
  {| console := [];
     readable := fun _ => Return contents;
     unwritable := fun _ => None;
     written := [] |}.

Definition qLine : jstring := sampleLine "Q" (pad (str "ACME CORP LTDA") 40).

Definition pLine : jstring := sampleLine "P" (pad (str "00012345") 40).

(** Fifteen lines, five of them "Q" lines; the first header line and the
    last trailer line are "Q" lines. *)
Definition sampleLines : list jstring :=
  [ qLine; pLine;
    pLine; qLine; pLine; pLine; qLine; pLine; pLine; qLine; pLine; pLine;
    pLine;
    pLine; qLine ].

Definition sampleDocument : Document :=
  {| full := sampleLines;
     header := range 0 2 sampleLines;
     body := range 2 13 sampleLines;
     tail := rangeFrom 13 sampleLines |}.

(** The options of [-j path]. *)
Definition exportOptions (path : jstring) : Options.t :=
  {| Options.from := None;
     Options.to := None;
     Options.segmento := None;
     Options.buscar := false;
     Options.nome := None;
     Options.json := Some path;
     Options.arquivo := None |}.

(** ** The command line and the entry point *)

(** Truthiness of an option that may be [undefined]. *)
Definition truthyOption {A : Type} (t : A -> bool) (o : option A) : bool :=
  match o with
  | Some a => t a
  | None => false
  end.

(** The message of the error the argument check throws; c-cedilla is 231,
    a-tilde 227, a-acute 225 and o-tilde 245. *)
Definition invalidArguments : jstring :=
  str "Combina" ++ ["231"%char; "227"%char] ++ str "o de argumentos inv"
  ++ ["225"%char] ++ str "lida. Use --help para ver as op"
  ++ ["231"%char; "245"%char] ++ str "es.".

(** The callback [setupCLI] hands to [.check]: it returns [true] or throws. *)
Definition setupCLI_check (argv : Options.t) : Outcome bool :=
  if Options.buscar argv
     && (truthyOption JS.truthyString (Options.nome argv)
         || truthyOption JS.truthyString (Options.segmento argv))
  then Return true
  else if truthyOption JS.truthyNumber (Options.from argv)
          && truthyOption JS.truthyNumber (Options.to argv)
          && truthyOption JS.truthyString (Options.segmento argv)
  then Return true
  else if truthyOption JS.truthyString (Options.json argv)
  then Return true
  else Throw invalidArguments.

Definition processingFailed (message : jstring) : list Text :=
  [ [Chalk red (Str (str "Erro ao processar o arquivo:"))];
    [Plain (Str message)] ].

(** What [console.timeEnd('Tempo total')] prints, [elapsed] being the
    formatted duration. *)
Definition timerLine (elapsed : jstring) : Text :=
  [ lit "Tempo total: "; Plain (Str elapsed) ].

(** [main].  The parsed command line ([setupCLI], which may throw), the
    directory of the script, [path.resolve] and the duration the timer
    measures are supplied by the runtime. *)
Definition main (toUpperCase : jstring -> jstring) (setupCLI : IO Options.t)
    (dirname : jstring) (path_resolve : jstring -> jstring)
    (elapsed : jstring) : IO unit :=
  tryCatch
    (options <- setupCLI ;;
     let defaultFilePath := dirname ++ str "/cnabExample.rem" in
     let filePath :=
       match Options.arquivo options with
       | Some arquivo =>
           if JS.truthyString arquivo then path_resolve arquivo
           else defaultFilePath
       | None => defaultFilePath
       end in
     cnabData <- readCnabFile filePath ;;
     processCommandArguments toUpperCase options cnabData)
    (fun message => console_error (processingFailed message)) ;;;
  log (timerLine elapsed).

(** ** Vocabulary for the whole run *)

(** The file [main] loads. *)
Definition chosenPath (options : Options.t) (dirname : jstring)
    (path_resolve : jstring -> jstring) : jstring :=
  match Options.arquivo options with
  | Some arquivo =>
      if JS.truthyString arquivo then path_resolve arquivo
      else dirname ++ str "/cnabExample.rem"
  | None => dirname ++ str "/cnabExample.rem"
  end.

(** [m] returns after logging [entries], and does nothing else. *)
Definition emits (m : IO unit) (entries : list LogEntry) : Prop :=
  forall w, m w = (Return tt, appendConsole w entries).

(** The document of a file's contents. *)
Definition documentOf (contents : jstring) : Document :=
  let lines := JS.split contents nl in
  {| full := lines;
     header := firstn 2 lines;
     body := skipn 2 (firstn (length lines - 2) lines);
     tail := skipn (length lines - 2) lines |}.

(** The report of a positional lookup in [lines]. *)
Definition lookupReport (segmentType : jstring) (from to : Z)
    (lines : list jstring) : Text :=
  match find (hasSegment segmentType) lines with
  | Some line => positionReport segmentType from to line
  | None => noLineFound
  end.

(** The report of a segment listing of [lines]. *)
Definition listingOf (segmentType : jstring) (lines : list jstring) : Text :=
  match filter (hasSegment segmentType) lines with
  | [] => noSegmentFound
  | found => listingReport segmentType found
  end.

(** The reports of a company-name search in [lines]. *)
Definition companyEntries (pattern : jstring) (lines : list jstring)
  : list LogEntry :=
  map (fun line => Out (companyReport line)) (companyMatches pattern lines)
  ++ match companyMatches pattern lines with
     | [] => [Out noCompanyFound]
     | _ :: _ => []
     end.

(** The console entries of the three query modes, in the order the program
    runs them. *)
Definition queryEntries (toUpperCase : jstring -> jstring)
    (options : Options.t) (lines : list jstring) : list LogEntry :=
  (match Options.from options, Options.to options, Options.segmento options
   with
   | Some from, Some to, Some s =>
       if JS.truthyNumber from && JS.truthyNumber to && JS.truthyString s
       then [Out (lookupReport (toUpperCase s) from to lines)]
       else []
   | _, _, _ => []
   end)
  ++ (if Options.buscar options
      then
        (if truthyOption JS.truthyString (Options.segmento options)
         then match Options.segmento options with
              | Some s => [Out (listingOf (toUpperCase s) lines)]
              | None => []
              end
         else [])
        ++ (if truthyOption JS.truthyString (Options.nome options)
            then match Options.nome options with
                 | Some n => companyEntries (toUpperCase n) lines
                 | None => []
                 end
            else [])
      else []).

(** The export step of a run, if the options ask for one. *)
Definition exportStep (options : Options.t) (lines : list jstring)
    (w : World) : World :=
  match Options.json options with
  | Some path => if JS.truthyString path then afterExport lines path w else w
  | None => w
  end.

(** The lines at least 14 code units long: those that have a
    discriminator. *)
Definition longEnough (line : jstring) : bool := (14 <=? length line)%nat.

(** The options of [-f from -t to -s segmento]. *)
Definition lookupOptions (from to : Z) (segmento : jstring) : Options.t :=
  {| Options.from := Some from;
     Options.to := Some to;
     Options.segmento := Some segmento;
     Options.buscar := false;
     Options.nome := None;
     Options.json := None;
     Options.arquivo := None |}.

(** The options of [-b -s segmento -n nome -j path]. *)
Definition searchOptions (segmento nome path : jstring) : Options.t :=
  {| Options.from := None;
     Options.to := None;
     Options.segmento := Some segmento;
     Options.buscar := true;
     Options.nome := Some nome;
     Options.json := Some path;
     Options.arquivo := None |}.

(** Options with nothing set. *)
Definition noOptions : Options.t :=
  {| Options.from := None;
     Options.to := None;
     Options.segmento := None;
     Options.buscar := false;
     Options.nome := None;
     Options.json := None;
     Options.arquivo := None |}.

(** * Properties of the built-ins *)

Lemma jstring_eqb_eq (s t : jstring) : jstring_eqb s t = true <-> s = t.
Proof.
  unfold jstring_eqb.
  destruct (list_eq_dec ascii_dec s t); split; congruence.
Qed.

Lemma jstring_eqb_refl (s : jstring) : jstring_eqb s s = true.
Proof. now apply jstring_eqb_eq. Qed.

(** The test [line[SEGMENT_INDEX] === segmentType] looks at index 13. *)
Lemma indexEq_hasSegment (line segmentType : jstring) :
  JS.indexEq line (SEGMENT_INDEX CNAB_POSITIONS) segmentType
  = hasSegment segmentType line.
Proof. reflexivity. Qed.

Lemma hasSegment_true (segmentType line : jstring) :
  hasSegment segmentType line = true
  <-> exists c, nth_error line 13 = Some c /\ segmentType = [c].
Proof.
  unfold hasSegment, discriminator.
  destruct (nth_error line 13) as [c|].
  - rewrite jstring_eqb_eq. split.
    + intros <-. now exists c.
    + intros (c' & Hc & ->). now inversion Hc.
  - split; [discriminate | intros (c & Hc & _); discriminate].
Qed.

Lemma hasSegment_length (segmentType line : jstring) :
  hasSegment segmentType line = true -> (14 <= length line)%nat.
Proof.
  intros H. apply hasSegment_true in H as (c & Hc & _).
  assert (Hn : nth_error line 13 <> None) by congruence.
  apply nth_error_Some in Hn. lia.
Qed.

Section Clipping.

Context {A : Type}.
Implicit Types l : list A.

Lemma firstn_min_length (n : nat) l :
  firstn (Nat.min n (length l)) l = firstn n l.
Proof.
  destruct (Nat.le_gt_cases n (length l)) as [H|H].
  - now rewrite Nat.min_l.
  - rewrite Nat.min_r by lia.
    now rewrite !firstn_all2 by lia.
Qed.

Lemma firstn_same_clip (n m : nat) l :
  Nat.min n (length l) = Nat.min m (length l) -> firstn n l = firstn m l.
Proof.
  intros H.
  now rewrite <- (firstn_min_length n), <- (firstn_min_length m), H.
Qed.

Lemma skipn_min_length (n : nat) l :
  skipn (Nat.min n (length l)) l = skipn n l.
Proof.
  destruct (Nat.le_gt_cases n (length l)) as [H|H].
  - now rewrite Nat.min_l.
  - rewrite Nat.min_r by lia.
    now rewrite !skipn_all2 by lia.
Qed.

(** Clamping both bounds to the length does not change a range. *)
Lemma clip_range (a b : nat) l :
  firstn (Nat.min b (length l) - Nat.min a (length l))
    (skipn (Nat.min a (length l)) l)
  = firstn (b - a) (skipn a l).
Proof.
  rewrite skipn_min_length.
  apply firstn_same_clip. rewrite length_skipn. lia.
Qed.

Lemma range_length (a b : Z) l :
  length (range a b l)
  = Nat.min (Z.to_nat b - Z.to_nat a) (length l - Z.to_nat a).
Proof. unfold range. now rewrite length_firstn, length_skipn. Qed.

(** [range a b l] holds exactly the elements at the indices of [a, b). *)
Lemma range_nth_error (a b : Z) l (k : nat) :
  nth_error (range a b l) k
  = if (Z.max a 0 + Z.of_nat k <? b)%Z
    then nth_error l (Z.to_nat a + k)
    else None.
Proof.
  unfold range.
  destruct (Z.ltb_spec (Z.max a 0 + Z.of_nat k) b) as [H|H].
  - rewrite nth_error_firstn.
    destruct (Nat.ltb_spec k (Z.to_nat b - Z.to_nat a)) as [H'|H']; [|lia].
    now rewrite nth_error_skipn.
  - apply nth_error_None. rewrite length_firstn. lia.
Qed.

Lemma range_crossed (a b : Z) l : (b <= a)%Z -> range a b l = [].
Proof.
  intros H. unfold range.
  replace (Z.to_nat b - Z.to_nat a)%nat with 0%nat by lia.
  reflexivity.
Qed.

(** Prefix, span and suffix of an ordered pair of positions give back the
    list. *)
Lemma range_partition (a b : Z) l :
  (a <= b)%Z -> range 0 a l ++ range a b l ++ rangeFrom b l = l.
Proof.
  intros H. unfold range, rangeFrom.
  replace (Z.to_nat b) with ((Z.to_nat b - Z.to_nat a) + Z.to_nat a)%nat
    at 2 by lia.
  rewrite <- skipn_skipn, firstn_skipn.
  change (Z.to_nat 0) with 0%nat. rewrite Nat.sub_0_r.
  apply firstn_skipn.
Qed.

(** [slice] with two non-negative bounds is the range between them. *)
Lemma slice_range (a b : Z) l :
  (0 <= a)%Z -> (0 <= b)%Z -> JS.slice l a (Some b) = range a b l.
Proof.
  intros Ha Hb. unfold JS.slice, JS.relIndex, range.
  destruct (Z.ltb_spec a 0) as [?|_]; [lia|].
  destruct (Z.ltb_spec b 0) as [?|_]; [lia|].
  apply clip_range.
Qed.

Lemma slice_head (n : Z) l :
  (0 <= n)%Z -> JS.slice l 0 (Some n) = firstn (Z.to_nat n) l.
Proof.
  intros H. rewrite slice_range by lia. unfold range.
  now rewrite Nat.sub_0_r.
Qed.

(** [slice(a, -k)]: from [a] up to the last [k] elements. *)
Lemma slice_middle (a k : Z) l :
  (0 <= a)%Z -> (0 < k)%Z ->
  JS.slice l a (Some (- k))
  = skipn (Z.to_nat a) (firstn (length l - Z.to_nat k) l).
Proof.
  intros Ha Hk. unfold JS.slice, JS.relIndex.
  destruct (Z.ltb_spec a 0) as [?|_]; [lia|].
  destruct (Z.ltb_spec (- k) 0) as [_|?]; [|lia].
  rewrite skipn_firstn_comm, skipn_min_length.
  apply firstn_same_clip. rewrite length_skipn. lia.
Qed.

(** [slice(-k)]: the last [k] elements. *)
Lemma slice_last (k : Z) l :
  (0 < k)%Z ->
  JS.slice l (- k) None = skipn (length l - Z.to_nat k) l.
Proof.
  intros Hk. unfold JS.slice, JS.relIndex.
  destruct (Z.ltb_spec (- k) 0) as [_|?]; [|lia].
  replace (Z.to_nat (Z.max (Z.of_nat (length l) + - k) 0))
    with (length l - Z.to_nat k)%nat by lia.
  apply firstn_all2. rewrite length_skipn. lia.
Qed.

End Clipping.

(** [substring] is the range between its bounds, taken in increasing
    order. *)
Lemma substring_range (s : jstring) (a b : Z) :
  (a <= b)%Z -> JS.substring s a (Some b) = range a b s.
Proof.
  intros H. unfold JS.substring, JS.clampIndex, range.
  set (n := Nat.min (Z.to_nat a) (length s)).
  set (m := Nat.min (Z.to_nat b) (length s)).
  assert (Hnm : (n <= m)%nat) by (subst n m; lia).
  rewrite (Nat.min_l n m), (Nat.max_r n m) by exact Hnm.
  apply clip_range.
Qed.

Lemma substring_swap (s : jstring) (a b : Z) :
  JS.substring s a (Some b) = JS.substring s b (Some a).
Proof.
  unfold JS.substring. now rewrite Nat.min_comm, Nat.max_comm.
Qed.

Lemma substring_cases (s : jstring) (a b : Z) :
  JS.substring s a (Some b)
  = if (a <=? b)%Z then range a b s else range b a s.
Proof.
  destruct (Z.leb_spec a b) as [H|H].
  - now apply substring_range.
  - rewrite substring_swap. apply substring_range. lia.
Qed.

Lemma substring_prefix (s : jstring) (a : Z) :
  JS.substring s 0 (Some a) = range 0 a s.
Proof.
  rewrite substring_cases.
  destruct (Z.leb_spec 0 a) as [H|H]; [reflexivity|].
  unfold range.
  replace (Z.to_nat a) with 0%nat by lia. reflexivity.
Qed.

Lemma substring_suffix (s : jstring) (b : Z) :
  JS.substring s b None = rangeFrom b s.
Proof.
  unfold JS.substring, JS.clampIndex, rangeFrom.
  set (n := Nat.min (Z.to_nat b) (length s)).
  assert (Hn : (n <= length s)%nat) by (subst n; lia).
  rewrite (Nat.min_l n), (Nat.max_r n) by exact Hn.
  subst n. rewrite skipn_min_length.
  apply firstn_all2. rewrite length_skipn. lia.
Qed.

(** ** trim *)

Lemma trimStart_spec (s : jstring) :
  exists l, s = l ++ JS.trimStart s /\ allWhiteSpace l.
Proof.
  induction s as [|c s (l & Hl & Hws)]; simpl.
  - exists []. split; [reflexivity | constructor].
  - destruct (JS.isWhiteSpace c) eqn:Hc.
    + exists (c :: l). split.
      * simpl. now rewrite <- Hl.
      * now constructor.
    + exists []. split; [reflexivity | constructor].
Qed.

Lemma trimStart_head (s : jstring) (c : ascii) (s' : jstring) :
  JS.trimStart s = c :: s' -> JS.isWhiteSpace c = false.
Proof.
  induction s as [|d s IH]; simpl; [discriminate|].
  destruct (JS.isWhiteSpace d) eqn:Hd; [exact IH|].
  intros H. now inversion H; subst.
Qed.

Lemma trimStart_fixed (s : jstring) :
  (forall c s', s = c :: s' -> JS.isWhiteSpace c = false) ->
  JS.trimStart s = s.
Proof.
  destruct s as [|c s]; [reflexivity|].
  intros H. simpl. now rewrite (H c s eq_refl).
Qed.

Lemma allWhiteSpace_rev (s : jstring) : allWhiteSpace s -> allWhiteSpace (rev s).
Proof. apply Forall_rev. Qed.

Lemma trimEnd_spec (s : jstring) :
  exists r, s = JS.trimEnd s ++ r /\ allWhiteSpace r.
Proof.
  unfold JS.trimEnd.
  destruct (trimStart_spec (rev s)) as (l & Hl & Hws).
  exists (rev l). split.
  - rewrite <- rev_app_distr, <- Hl. now rewrite rev_involutive.
  - now apply allWhiteSpace_rev.
Qed.

Lemma trimEnd_last (s : jstring) (c : ascii) (s' : jstring) :
  JS.trimEnd s = s' ++ [c] -> JS.isWhiteSpace c = false.
Proof.
  unfold JS.trimEnd. intros H.
  apply (f_equal (@rev ascii)) in H.
  rewrite rev_involutive, rev_app_distr in H. simpl in H.
  eapply trimStart_head; exact H.
Qed.

Lemma trimEnd_head (s : jstring) (c : ascii) (s' : jstring) :
  JS.trimEnd s = c :: s' -> exists s'', s = c :: s''.
Proof.
  intros H. destruct (trimEnd_spec s) as (r & Hr & _).
  rewrite H in Hr. now exists (s' ++ r).
Qed.

(** [trim] removes exactly the white space at both ends. *)
Lemma trim_trimmedOf (s : jstring) : trimmedOf (JS.trim s) s.
Proof.
  unfold JS.trim. split; [split|].
  - intros c s' H. apply trimEnd_head in H as (s'' & H).
    eapply trimStart_head; exact H.
  - intros c s' H. eapply trimEnd_last; exact H.
  - destruct (trimStart_spec s) as (l & Hl & Hwl).
    destruct (trimEnd_spec (JS.trimStart s)) as (r & Hr & Hwr).
    exists l, r. repeat split; try assumption.
    now rewrite <- Hr.
Qed.

Lemma trim_length (s : jstring) : (length (JS.trim s) <= length s)%nat.
Proof.
  destruct (trim_trimmedOf s) as (_ & l & r & H & _).
  rewrite H at 2. rewrite !length_app. lia.
Qed.

(** Without leading white space, [trim] leaves a prefix. *)
Lemma trim_prefix (s : jstring) :
  JS.trimStart s = s -> firstn (length (JS.trim s)) s = JS.trim s.
Proof.
  intros Hs. unfold JS.trim. rewrite Hs.
  destruct (trimEnd_spec s) as (r & Hr & _).
  rewrite Hr at 2. rewrite firstn_app, Nat.sub_diag, firstn_all.
  simpl. apply app_nil_r.
Qed.

(** ** includes *)

Lemma startsWith_spec (s p : jstring) :
  JS.startsWith s p = true <-> exists r, s = p ++ r.
Proof.
  revert s. induction p as [|a p IH]; intros s; simpl.
  - split; [intros _; now exists s | reflexivity].
  - destruct s as [|b s].
    + split; [discriminate | intros (r & H); discriminate].
    + rewrite andb_true_iff, Ascii.eqb_eq, IH. split.
      * intros (-> & r & ->). now exists r.
      * intros (r & H). inversion H; subst. split; [reflexivity|now exists r].
Qed.

Lemma includes_spec (s p : jstring) :
  JS.includes s p = true <-> contains s p.
Proof.
  unfold contains. induction s as [|c s IH]; simpl.
  - rewrite orb_false_r, startsWith_spec. split.
    + intros (r & H). now exists [], r.
    + intros (l & r & H). symmetry in H.
      apply app_eq_nil in H as (-> & H). apply app_eq_nil in H as (-> & ->).
      now exists [].
  - rewrite orb_true_iff, startsWith_spec, IH. split.
    + intros [(r & H)|(l & r & H)].
      * now exists [], r.
      * exists (c :: l), r. simpl. now rewrite H.
    + intros (l & r & H). destruct l as [|d l].
      * left. now exists r.
      * right. inversion H; subst. now exists l, r.
Qed.

(** ** split and join *)

Lemma split_not_nil (s : jstring) (sep : ascii) : JS.split s sep <> [].
Proof.
  destruct s as [|c s]; simpl; [discriminate|].
  destruct (Ascii.eqb c sep); [discriminate|].
  destruct (JS.split s sep); discriminate.
Qed.

Lemma join_cons {A : Type} (p : list A) (rest : list (list A)) (sep : list A) :
  rest <> [] -> JS.join (p :: rest) sep = p ++ sep ++ JS.join rest sep.
Proof. destruct rest; [congruence | reflexivity]. Qed.

(** Joining the pieces with the separator gives the string back. *)
Lemma join_split (s : jstring) (sep : ascii) :
  JS.join (JS.split s sep) [sep] = s.
Proof.
  induction s as [|c s IH]; [reflexivity|]. simpl.
  destruct (Ascii.eqb_spec c sep) as [->|Hc].
  - rewrite join_cons by apply split_not_nil. simpl. now rewrite IH.
  - pose proof (split_not_nil s sep) as Hne.
    destruct (JS.split s sep) as [|h t]; [congruence|].
    destruct t as [|h' t].
    + simpl in *. now rewrite IH.
    + rewrite join_cons in IH by discriminate.
      rewrite join_cons by discriminate.
      rewrite <- app_comm_cons. now rewrite IH.
Qed.

(** No piece holds the separator. *)
Lemma split_no_sep (s : jstring) (sep : ascii) :
  Forall (fun line => ~ In sep line) (JS.split s sep).
Proof.
  induction s as [|c s IH]; simpl.
  - constructor; [intros [] | constructor].
  - destruct (Ascii.eqb_spec c sep) as [->|Hc].
    + constructor; [intros [] | exact IH].
    + destruct (JS.split s sep) as [|h t]; inversion IH; subst.
      * constructor; [|constructor]. intros [H|[]]. congruence.
      * constructor; [|assumption]. intros [H|H]; [congruence|contradiction].
Qed.

Lemma split_single (p : jstring) (sep : ascii) :
  ~ In sep p -> JS.split p sep = [p].
Proof.
  induction p as [|c p IH]; [reflexivity|]. simpl. intros H.
  destruct (Ascii.eqb_spec c sep) as [->|Hc]; [tauto|].
  rewrite IH by tauto. reflexivity.
Qed.

Lemma split_app_sep (p s : jstring) (sep : ascii) :
  ~ In sep p -> JS.split (p ++ sep :: s) sep = p :: JS.split s sep.
Proof.
  induction p as [|c p IH]; simpl; intros H.
  - now rewrite Ascii.eqb_refl.
  - destruct (Ascii.eqb_spec c sep) as [->|Hc]; [tauto|].
    rewrite IH by tauto. reflexivity.
Qed.

(** Lines without the separator, joined, split back into themselves:
    nothing is trimmed and nothing is dropped. *)
Lemma split_join (lines : list jstring) (sep : ascii) :
  lines <> [] -> Forall (fun line => ~ In sep line) lines ->
  JS.split (JS.join lines [sep]) sep = lines.
Proof.
  induction lines as [|p rest IH]; [congruence|].
  intros _ H. inversion H as [|? ? Hp Hrest]; subst.
  destruct rest as [|q rest].
  - simpl. now apply split_single.
  - rewrite join_cons by discriminate.
    change (p ++ [sep] ++ JS.join (q :: rest) [sep])
      with (p ++ sep :: JS.join (q :: rest) [sep]).
    rewrite split_app_sep by assumption.
    now rewrite IH by (discriminate || assumption).
Qed.

(** ** The built-ins on small inputs *)

Example substring_swaps_crossed_bounds :
  JS.substring (str "abcdefgh") 4 (Some 2) = str "cd".
Proof. reflexivity. Qed.

Example substring_clamps :
  JS.substring (str "abcdefgh") (-3) (Some 100) = str "abcdefgh".
Proof. reflexivity. Qed.

Example slice_crossed_is_empty :
  JS.slice (str "abcdefgh") 4 (Some 2) = [].
Proof. reflexivity. Qed.

Example slice_negative_end :
  JS.slice [1; 2; 3; 4; 5; 6] 2 (Some (-2)) = [3; 4].
Proof. reflexivity. Qed.

Example slice_short_array :
  JS.slice [1; 2; 3] 2 (Some (-2)) = [] /\ JS.slice [1; 2; 3] (-2) None = [2; 3].
Proof. split; reflexivity. Qed.

Example split_keeps_empty_and_cr :
  JS.split (str "a" ++ ["013"%char; nl] ++ str " b" ++ [nl]) nl
  = [str "a" ++ ["013"%char]; str " b"; []].
Proof. reflexivity. Qed.

Example trim_both_ends :
  JS.trim (["160"%char] ++ str "  a b " ++ ["009"%char]) = str "a b".
Proof. reflexivity. Qed.

Example includes_empty_pattern : JS.includes (str "abc") [] = true.
Proof. reflexivity. Qed.

Example short_line_has_no_segment :
  JS.indexEq (str "0123456789ABC") 13 (str "Q") = false.
Proof. reflexivity. Qed.

(** * Running the operations *)

Lemma appendConsole_nil (w : World) : appendConsole w [] = w.
Proof. destruct w. unfold appendConsole. simpl. now rewrite app_nil_r. Qed.

Lemma appendConsole_app (w : World) (a b : list LogEntry) :
  appendConsole (appendConsole w a) b = appendConsole w (a ++ b).
Proof. unfold appendConsole. simpl. now rewrite <- app_assoc. Qed.

Lemma forEach_log {A : Type} (f : A -> Text) (l : list A) (w : World) :
  forEach l (fun a => log (f a)) w
  = (Return tt, appendConsole w (map (fun a => Out (f a)) l)).
Proof.
  revert w. induction l as [|a l IH]; intros w; simpl.
  - unfold ret. now rewrite appendConsole_nil.
  - unfold bind, log, emit. rewrite IH.
    now rewrite appendConsole_app.
Qed.

Lemma forEach_ext {A : Type} (l : list A) (f g : A -> IO unit) :
  (forall a, f a = g a) -> forEach l f = forEach l g.
Proof.
  intros H. induction l as [|a l IH]; simpl; [reflexivity|].
  now rewrite H, IH.
Qed.

(** The template of [messageLog], with its three substrings as ranges. *)
Lemma messageLog_report (line segmentType : jstring) (from to : Z)
    (caminho : option jstring) :
  messageLog line segmentType from to caminho
  = positionReport segmentType from to line.
Proof.
  unfold messageLog, positionReport, lineReport, highlightedSpan.
  now rewrite substring_prefix, substring_cases, substring_suffix.
Qed.

Lemma highlightedSpan_ordered (from to : Z) (line : jstring) :
  from - 1 <= to -> highlightedSpan from to line = range (from - 1) to line.
Proof.
  intros H. unfold highlightedSpan.
  now destruct (Z.leb_spec (from - 1) to); [|lia].
Qed.

Lemma highlightedSpan_crossed (from to : Z) (line : jstring) :
  to < from - 1 -> highlightedSpan from to line = range to (from - 1) line.
Proof.
  intros H. unfold highlightedSpan.
  now destruct (Z.leb_spec (from - 1) to); [lia|].
Qed.

Lemma hasSegment_truthy (segmentType line : jstring) :
  hasSegment segmentType line = true -> JS.truthyString line = true.
Proof.
  intros H. apply hasSegment_length in H.
  destruct line; [simpl in H; lia | reflexivity].
Qed.

(** Positional Range Lookup: one report, on the first line that carries
    the segment type, or the "no line found" report. *)
Lemma searchSegmentPositions_run (cnabBody : list jstring)
    (segmentType : jstring) (from to : Z) (arquivoPath : option jstring)
    (w : World) :
  searchSegmentPositions cnabBody segmentType from to arquivoPath w
  = (Return tt,
     appendConsole w
       [Out match find (hasSegment segmentType) cnabBody with
            | Some line => positionReport segmentType from to line
            | None => noLineFound
            end]).
Proof.
  unfold searchSegmentPositions.
  change (fun line : jstring =>
            JS.indexEq line (SEGMENT_INDEX CNAB_POSITIONS) segmentType)
    with (hasSegment segmentType).
  destruct (find (hasSegment segmentType) cnabBody) as [line|] eqn:Hf;
    [|reflexivity].
  apply find_some in Hf as (_ & Hline).
  rewrite (hasSegment_truthy _ _ Hline), messageLog_report.
  reflexivity.
Qed.

(** [find] returns the first element that passes the test. *)
Lemma find_first {A : Type} (p : A -> bool) (l1 l2 : list A) (x : A) :
  forallb (fun y => negb (p y)) l1 = true -> p x = true ->
  find p (l1 ++ x :: l2) = Some x.
Proof.
  intros H1 Hx. induction l1 as [|y l1 IH]; simpl in *.
  - now rewrite Hx.
  - apply andb_true_iff in H1 as (Hy & H1).
    apply negb_true_iff in Hy. rewrite Hy. now apply IH.
Qed.

Lemma find_none_iff {A : Type} (p : A -> bool) (l : list A) :
  find p l = None <-> forallb (fun y => negb (p y)) l = true.
Proof.
  induction l as [|y l IH]; simpl; [tauto|].
  destruct (p y); simpl; [split; discriminate | exact IH].
Qed.

(** The template of [segmentMessageLog] at the positions the listing
    passes: index 13 highlighted in every line. *)
Lemma segmentMessageLog_report (found : list jstring) (segmentType : jstring) :
  segmentMessageLog found segmentType
    (SEGMENT_INDEX CNAB_POSITIONS + 1) (SEGMENT_INDEX CNAB_POSITIONS + 1)
  = listingReport segmentType found.
Proof.
  unfold segmentMessageLog, listingReport, segmentReport, listedLine.
  do 3 f_equal. apply map_ext. intros line.
  change (SEGMENT_INDEX CNAB_POSITIONS + 1) with 14.
  now rewrite substring_prefix, substring_range, substring_suffix by lia.
Qed.

(** Segment-Type Listing: every line that carries the segment type, with
    index 13 highlighted, or the "no segment found" report. *)
Lemma searchBySegmentType_run (cnabBody : list jstring)
    (segmentType : jstring) (w : World) :
  searchBySegmentType cnabBody segmentType w
  = (Return tt,
     appendConsole w
       [Out match filter (hasSegment segmentType) cnabBody with
            | [] => noSegmentFound
            | found => listingReport segmentType found
            end]).
Proof.
  unfold searchBySegmentType.
  change (fun line : jstring =>
            JS.indexEq line (SEGMENT_INDEX CNAB_POSITIONS) segmentType)
    with (hasSegment segmentType).
  rewrite segmentMessageLog_report.
  destruct (filter (hasSegment segmentType) cnabBody) as [|l found];
    reflexivity.
Qed.

(** The trimmed company name fits between index 33 and the end of the
    line. *)
Lemma trimmedName_fits (line : jstring) :
  (trimmedNameLength line <= length line - 33)%nat.
Proof.
  unfold trimmedNameLength, companyField.
  etransitivity; [apply trim_length|].
  rewrite range_length. lia.
Qed.

(** The span of a company report has the length of the trimmed name. *)
Lemma companySpan_length (line : jstring) :
  length (range 33 (33 + Z.of_nat (trimmedNameLength line)) line)
  = trimmedNameLength line.
Proof.
  pose proof (trimmedName_fits line) as H.
  rewrite range_length. lia.
Qed.

(** When the field does not start with white space, the span is the
    trimmed name itself. *)
Lemma companySpan_name (line : jstring) :
  JS.trimStart (companyField line) = companyField line ->
  range 33 (33 + Z.of_nat (trimmedNameLength line)) line
  = JS.trim (companyField line).
Proof.
  intros H. rewrite <- (trim_prefix H).
  fold (trimmedNameLength line).
  pose proof (trimmedName_fits line) as Hfit.
  unfold companyField, range.
  rewrite firstn_firstn. f_equal.
  assert (Hw : (trimmedNameLength line <= 40)%nat).
  { unfold trimmedNameLength, companyField.
    etransitivity; [apply trim_length|]. rewrite range_length. lia. }
  lia.
Qed.

Lemma companyMessage_report (line : jstring) (arquivoPath : option jstring) :
  messageLog line (str "Q")
    (START (COMPANY_NAME CNAB_POSITIONS) + 1)
    (START (COMPANY_NAME CNAB_POSITIONS)
     + Z.of_nat
         (length
            (JS.trim
               (JS.slice line (START (COMPANY_NAME CNAB_POSITIONS))
                  (Some (END (COMPANY_NAME CNAB_POSITIONS)))))))
    arquivoPath
  = companyReport line.
Proof.
  rewrite messageLog_report.
  change (START (COMPANY_NAME CNAB_POSITIONS)) with 33.
  change (END (COMPANY_NAME CNAB_POSITIONS)) with 73.
  rewrite slice_range by lia.
  fold (companyField line). fold (trimmedNameLength line).
  unfold positionReport, companyReport.
  rewrite highlightedSpan_ordered by lia.
  reflexivity.
Qed.

Section CompanySearch.

Variable toUpperCase : jstring -> jstring.

(** Company-Name Search: one report per selected line, in body order,
    then the "no company found" report when nothing was selected. *)
Lemma searchByCompanyName_run (cnabBody : list jstring)
    (companyName : jstring) (arquivoPath : option jstring) (w : World) :
  searchByCompanyName toUpperCase cnabBody companyName arquivoPath w
  = (Return tt,
     appendConsole w
       (map (fun line => Out (companyReport line))
            (companyMatches (toUpperCase companyName) cnabBody)
        ++ match companyMatches (toUpperCase companyName) cnabBody with
           | [] => [Out noCompanyFound]
           | _ :: _ => []
           end)).
Proof.
  unfold searchByCompanyName.
  assert (Hfilter :
    filter (fun line : jstring =>
              JS.indexEq line (SEGMENT_INDEX CNAB_POSITIONS) (str "Q")
              && JS.includes
                   (JS.slice line (START (COMPANY_NAME CNAB_POSITIONS))
                      (Some (END (COMPANY_NAME CNAB_POSITIONS))))
                   (toUpperCase companyName))
           cnabBody
    = companyMatches (toUpperCase companyName) cnabBody).
  { unfold companyMatches. apply filter_ext. intros line.
    rewrite indexEq_hasSegment.
    change (START (COMPANY_NAME CNAB_POSITIONS)) with 33.
    change (END (COMPANY_NAME CNAB_POSITIONS)) with 73.
    now rewrite slice_range by lia. }
  rewrite Hfilter.
  set (found := companyMatches (toUpperCase companyName) cnabBody).
  unfold bind.
  rewrite (@forEach_ext _ found _ (fun line => log (companyReport line)))
    by (intros line; now rewrite companyMessage_report).
  rewrite forEach_log.
  destruct found as [|l found]; simpl.
  - unfold log, emit. now rewrite appendConsole_app.
  - unfold ret. now rewrite app_nil_r.
Qed.

End CompanySearch.

(** Field extraction reads the six ranges of the Q offset table. *)
Lemma parseCnabQSegmentLine_fields (line : jstring) :
  parseCnabQSegmentLine line = qFields line.
Proof.
  unfold parseCnabQSegmentLine, qFields, CNAB_POSITIONS.
  cbn [START END COMPANY_NAME ADDRESS DISTRICT ZIP CITY STATE].
  now rewrite !slice_range by lia.
Qed.

Lemma exportToJson_run (data : list jstring) (outPath : jstring) (w : World) :
  exportToJson data outPath w
  = match unwritable w outPath with
    | None =>
        (Return (str "Arquivo JSON exportado para: " ++ outPath),
         recordWrite w outPath
           (jsonOfParsedData (map parseCnabQSegmentLine data)))
    | Some e => (Throw e, w)
    end.
Proof.
  unfold exportToJson, bind, fs_writeFile.
  now destruct (unwritable w outPath).
Qed.

(** Export: the lines that carry "Q" are extracted and written, and the
    success is reported; a failed write is caught and reported. *)
Lemma exportToJsonFile_run (cnabArray : list jstring) (jsonPath : jstring)
    (w : World) :
  exportToJsonFile cnabArray jsonPath w
  = (Return tt, afterExport cnabArray jsonPath w).
Proof.
  unfold exportToJsonFile, tryCatch, bind, afterExport, exportedEntries.
  rewrite exportToJson_run.
  change (fun line : jstring =>
            JS.indexEq line (SEGMENT_INDEX CNAB_POSITIONS) (str "Q"))
    with (hasSegment (str "Q")).
  now destruct (unwritable w jsonPath).
Qed.

(** Loading: the lines of the file and its three partitions. *)
Lemma readCnabFile_run (filePath : jstring) (w : World) :
  readCnabFile filePath w
  = match readable w filePath with
    | Return file =>
        let lines := JS.split file nl in
        (Return {| full := lines;
                   header := firstn 2 lines;
                   body := skipn 2 (firstn (length lines - 2) lines);
                   tail := skipn (length lines - 2) lines |},
         w)
    | Throw e => (Throw e, w)
    end.
Proof.
  unfold readCnabFile, bind, fs_readFile.
  destruct (readable w filePath) as [file|e]; [|reflexivity].
  unfold sliceArrayPosition, ret. cbv zeta.
  rewrite slice_head by lia.
  rewrite (slice_middle (a := 2) (k := 2)) by lia.
  rewrite (slice_last (k := 2)) by lia.
  reflexivity.
Qed.

(** * The claims *)

Unset Implicit Arguments.

(** C1. For every line, field extraction for segment type "Q"
    ([parseCnabQSegmentLine]) returns exactly the six fields of the static
    offset table, in table order (nome, endereco, bairro, cep, cidade,
    estado), each with its range as in the table; nome, endereco, bairro
    and cidade hold the slice without its surrounding white space, cep and
    estado hold the raw slice. *)
Theorem C1_q_fields (line : jstring) :
  fieldNames (parseCnabQSegmentLine line) = qNames
  /\ fieldNames (parseCnabQSegmentLine line) = map fst qOffsetTable
  /\ fieldRanges (parseCnabQSegmentLine line)
     = [ (33, 73); (73, 113); (113, 128); (128, 136); (136, 151);
         (151, 154) ]
  /\ fieldRanges (parseCnabQSegmentLine line) = map bounds qRanges
  /\ (exists nome endereco bairro cidade,
        fieldValues (parseCnabQSegmentLine line)
        = [ nome; endereco; bairro; range 128 136 line; cidade;
            range 151 154 line ]
        /\ trimmedOf nome (range 33 73 line)
        /\ trimmedOf endereco (range 73 113 line)
        /\ trimmedOf bairro (range 113 128 line)
        /\ trimmedOf cidade (range 136 151 line)).
Proof.
  rewrite parseCnabQSegmentLine_fields.
  repeat split; try reflexivity.
  exists (JS.trim (range 33 73 line)), (JS.trim (range 73 113 line)),
    (JS.trim (range 113 128 line)), (JS.trim (range 136 151 line)).
  split; [reflexivity|].
  repeat split; apply trim_trimmedOf.
Qed.

(** C10. The six Q ranges are contiguous and tile [33, 154): each range
    ends where the next one starts, so they are pairwise disjoint and leave
    no gap, and the discriminator index 13 lies outside every range. *)
Theorem C10_q_ranges_tile :
  map bounds qRanges
  = [ (33, 73); (73, 113); (113, 128); (128, 136); (136, 151); (151, 154) ]
  /\ contiguous qRanges
  /\ ForallOrdPairs disjoint qRanges
  /\ (forall i, 33 <= i < 154 <-> Exists (fun r => covers r i) qRanges)
  /\ Forall (fun r => ~ covers r (SEGMENT_INDEX CNAB_POSITIONS)) qRanges.
Proof.
  split; [reflexivity|].
  split; [cbn; tauto|].
  split.
  { unfold qRanges, qOffsetTable, disjoint, covers. cbn.
    repeat (apply FOP_cons;
            [repeat (apply Forall_cons; [cbn; intros i; lia|]);
             apply Forall_nil|]).
    apply FOP_nil. }
  split.
  { intros i. unfold qRanges, qOffsetTable, covers. cbn.
    rewrite !Exists_cons, Exists_nil. cbn. lia. }
  unfold qRanges, qOffsetTable, covers. cbn.
  repeat (apply Forall_cons; [cbn; lia|]). apply Forall_nil.
Qed.

(** C5. Loading a file splits its contents on the newline character
    without trimming the lines: the lines are the one way to cut the
    contents at its newlines.  The document has all lines as [full], lines
    [0, 2) as [header], lines [2, len - 2) as [body] and the last two lines
    as [tail]. *)
Theorem C5_load_partitions (filePath contents : jstring) (w : World) :
  readable w filePath = Return contents ->
  exists lines : list jstring,
    (JS.join lines [nl] = contents /\ lines <> [] /\ Forall noNewline lines)
    /\ (forall lines' : list jstring,
          lines' <> [] -> Forall noNewline lines' ->
          JS.join lines' [nl] = contents -> lines' = lines)
    /\ readCnabFile filePath w
       = (Return
            {| full := lines;
               header := range 0 2 lines;
               body := range 2 (Z.of_nat (length lines) - 2) lines;
               tail := rangeFrom (Z.of_nat (length lines) - 2) lines |},
          w).
Proof.
  intros Hread. exists (JS.split contents nl).
  split; [|split].
  - split; [apply join_split|].
    split; [apply split_not_nil | apply split_no_sep].
  - intros lines' Hne Hnl <-. symmetry. now apply split_join.
  - rewrite readCnabFile_run, Hread. cbv zeta.
    unfold range, rangeFrom.
    rewrite skipn_firstn_comm.
    replace (Z.to_nat (Z.of_nat (length (JS.split contents nl)) - 2))
      with (length (JS.split contents nl) - 2)%nat by lia.
    reflexivity.
Qed.

(** A file of six lines, one of them empty and one ending in a carriage
    return: two header lines, two body lines, two trailer lines. *)
Lemma C5_load_partitions_witness :
  readCnabFile (str "cnab.rem")
    (worldWithFile
       (JS.join [str "H1"; str "H2 "; str " B1"; []; str "T1"; [ "013"%char ]]
          [nl]))
  = (Return
       {| full := [str "H1"; str "H2 "; str " B1"; []; str "T1";
                   [ "013"%char ]];
          header := [str "H1"; str "H2 "];
          body := [str " B1"; []];
          tail := [str "T1"; [ "013"%char ]] |},
     worldWithFile
       (JS.join [str "H1"; str "H2 "; str " B1"; []; str "T1"; [ "013"%char ]]
          [nl])).
Proof.
  destruct (C5_load_partitions (str "cnab.rem")
              (JS.join
                 [str "H1"; str "H2 "; str " B1"; []; str "T1";
                  [ "013"%char ]] [nl])
              (worldWithFile
                 (JS.join
                    [str "H1"; str "H2 "; str " B1"; []; str "T1";
                     [ "013"%char ]] [nl]))
              eq_refl)
    as (lines & _ & Huniq & Hrun).
  rewrite Hrun.
  rewrite <- (Huniq [str "H1"; str "H2 "; str " B1"; []; str "T1";
                     [ "013"%char ]]).
  - reflexivity.
  - discriminate.
  - repeat (apply Forall_cons;
            [unfold noNewline; cbn; intuition discriminate|]).
    apply Forall_nil.
  - reflexivity.
Defined.

(** With only the export option set, the program exports the full line
    sequence of the document. *)
Lemma processCommandArguments_export (toUpperCase : jstring -> jstring)
    (options : Options.t) (cnabData : Document) (jsonPath : jstring)
    (w : World) :
  Options.from options = None -> Options.buscar options = false ->
  Options.json options = Some jsonPath -> jsonPath <> [] ->
  processCommandArguments toUpperCase options cnabData w
  = exportToJsonFile (full cnabData) jsonPath w.
Proof.
  intros Hfrom Hbuscar Hjson Hpath.
  unfold processCommandArguments.
  rewrite Hfrom, Hbuscar, Hjson.
  destruct jsonPath as [|c jsonPath]; [congruence|].
  reflexivity.
Qed.

Lemma exportedEntries_fields (lines : list jstring) :
  exportedEntries lines = map qFields (filter (hasSegment (str "Q")) lines).
Proof.
  unfold exportedEntries. apply map_ext, parseCnabQSegmentLine_fields.
Qed.

(** C6. Export filters [document.full], the whole line sequence and not
    only the body, to the lines whose code unit at index 13 is "Q",
    extracts the six fields of each and writes one entry per such line, in
    the original order; with 5 "Q" lines and 10 other lines the output has
    exactly 5 entries of 6 fields each. *)
Theorem C6_export_full (toUpperCase : jstring -> jstring)
    (options : Options.t) (cnabData : Document) (jsonPath : jstring)
    (w : World) :
  Options.from options = None -> Options.buscar options = false ->
  Options.json options = Some jsonPath -> jsonPath <> [] ->
  unwritable w jsonPath = None ->
  let selected := filter (hasSegment (str "Q")) (full cnabData) in
  let entries := map qFields selected in
  processCommandArguments toUpperCase options cnabData w
  = (Return tt,
     appendConsole
       (recordWrite w jsonPath (JArray (map jsonOfObj entries)))
       [Out (exportedMessage jsonPath)])
  /\ length entries = length selected
  /\ Forall (fun entry => fieldNames entry = qNames) entries
  /\ (length selected = 5%nat ->
      length (filter (fun line => negb (hasSegment (str "Q") line))
                (full cnabData)) = 10%nat ->
      length entries = 5%nat
      /\ Forall (fun entry => length entry = 6%nat) entries).
Proof.
  intros Hfrom Hbuscar Hjson Hpath Hwrite selected entries.
  split; [|split; [|split]].
  - rewrite (processCommandArguments_export toUpperCase options cnabData
               jsonPath w Hfrom Hbuscar Hjson Hpath).
    rewrite exportToJsonFile_run. unfold afterExport.
    now rewrite Hwrite, exportedEntries_fields.
  - apply length_map.
  - apply Forall_map, Forall_forall. reflexivity.
  - intros H5 _. split.
    + unfold entries. now rewrite length_map.
    + apply Forall_map, Forall_forall. reflexivity.
Qed.

(** The sample document: the two "Q" lines of the header and of the trailer
    are exported along with the three of the body. *)
Lemma C6_export_full_witness :
  written
    (snd (processCommandArguments asciiUpper (exportOptions (str "out.json"))
            sampleDocument emptyWorld))
  = [ (str "out.json",
       JArray (map jsonOfObj (map qFields [qLine; qLine; qLine; qLine; qLine])))
    ]
  /\ length (filter (hasSegment (str "Q")) (body sampleDocument)) = 3%nat.
Proof.
  destruct (C6_export_full asciiUpper (exportOptions (str "out.json"))
              sampleDocument (str "out.json") emptyWorld
              eq_refl eq_refl eq_refl ltac:(discriminate) eq_refl)
    as (Hrun & _ & _ & Hscenario).
  destruct (Hscenario eq_refl eq_refl) as (_ & _).
  rewrite Hrun. split; reflexivity.
Defined.

(** C3, as the code has it.  Field extraction takes no segment type and
    never fails: it returns the six fields of the Q table for every line,
    whatever its discriminator.  An export throws only when the file cannot
    be written, and [exportToJsonFile] hands extraction the lines that
    carry "Q" and no others. *)
Theorem C3_extraction_total (line : jstring) (data : list jstring)
    (outPath : jstring) (w : World) :
  fieldNames (parseCnabQSegmentLine line) = qNames
  /\ fst (exportToJson data outPath w)
     = match unwritable w outPath with
       | None => Return (str "Arquivo JSON exportado para: " ++ outPath)
       | Some e => Throw e
       end
  /\ fst (exportToJsonFile data outPath w) = Return tt
  /\ snd (exportToJsonFile data outPath w) = afterExport data outPath w
  /\ exportedEntries data
     = map parseCnabQSegmentLine (filter (hasSegment (str "Q")) data)
  /\ Forall (fun l => discriminator l = Some "Q"%char)
       (filter (hasSegment (str "Q")) data).
Proof.
  split; [reflexivity|].
  split; [rewrite exportToJson_run; now destruct (unwritable w outPath)|].
  rewrite exportToJsonFile_run.
  split; [reflexivity|]. split; [reflexivity|]. split; [reflexivity|].
  apply Forall_forall. intros l Hl. apply filter_In in Hl as (_ & Hl).
  apply hasSegment_true in Hl as (c & Hc & Heq).
  unfold discriminator. rewrite Hc. now inversion Heq.
Qed.

(** C3 fails as stated: extraction applied to a "P" line, for which no
    offset table is defined, returns a field set and the export of that
    line succeeds. *)
Lemma C3_counterexample :
  discriminator pLine = Some "P"%char
  /\ parseCnabQSegmentLine pLine
     = [ ("nome"%string,
          {| value := str "00012345"; from := 33; to := 73 |});
         ("endereco"%string, {| value := []; from := 73; to := 113 |});
         ("bairro"%string, {| value := []; from := 113; to := 128 |});
         ("cep"%string, {| value := []; from := 128; to := 136 |});
         ("cidade"%string, {| value := []; from := 136; to := 151 |});
         ("estado"%string, {| value := []; from := 151; to := 154 |}) ]
  /\ fst (exportToJson [pLine] (str "out.json") emptyWorld)
     = Return (str "Arquivo JSON exportado para: out.json")
  /\ (forall e, fst (exportToJson [pLine] (str "out.json") emptyWorld)
                <> Throw e).
Proof.
  repeat split; try reflexivity.
  intros e. discriminate.
Qed.

(** C4, as the code has it.  Positional Range Lookup reports only the first
    body line whose code unit at index 13 equals the segment type, whatever
    follows it.  When [from - 1 <= to], the report holds the substring
    [from - 1, to) of that line and the line as three spans, prefix
    [0, from - 1), highlighted [from - 1, to) and suffix [to, end), whose
    concatenation is the line. *)
Theorem C4_first_line_spans (before after : list jstring)
    (line segmentType : jstring) (from to : Z) (arquivoPath : option jstring)
    (w : World) :
  forallb (fun l => negb (hasSegment segmentType l)) before = true ->
  hasSegment segmentType line = true ->
  from - 1 <= to ->
  searchSegmentPositions (before ++ line :: after) segmentType from to
    arquivoPath w
  = (Return tt,
     appendConsole w
       [Out (lineReport segmentType from to
               (range (from - 1) to line)
               (range 0 (from - 1) line)
               (range (from - 1) to line)
               (rangeFrom to line))])
  /\ range 0 (from - 1) line ++ range (from - 1) to line ++ rangeFrom to line
     = line.
Proof.
  intros Hbefore Hline Horder. split.
  - rewrite searchSegmentPositions_run.
    rewrite (find_first (hasSegment segmentType) before after line
               Hbefore Hline).
    unfold positionReport.
    now rewrite highlightedSpan_ordered.
  - now apply range_partition.
Qed.

(** Two "Q" lines after a "P" line: positions 34 to 47 of the first "Q"
    line are reported, the second "Q" line is not. *)
Lemma C4_first_line_spans_witness :
  searchSegmentPositions
    [pLine; qLine; sampleLine "Q" (pad (str "OTHER SA") 40)]
    (str "Q") 34 47 None emptyWorld
  = (Return tt,
     appendConsole emptyWorld
       [Out (lineReport (str "Q") 34 47
               (str "ACME CORP LTDA")
               (repeat "."%char 13 ++ str "Q" ++ repeat "."%char 19)
               (str "ACME CORP LTDA")
               (repeat " "%char 26))])
  /\ (repeat "."%char 13 ++ str "Q" ++ repeat "."%char 19)
     ++ str "ACME CORP LTDA" ++ repeat " "%char 26
     = qLine.
Proof.
  exact (C4_first_line_spans [pLine]
           [sampleLine "Q" (pad (str "OTHER SA") 40)] qLine (str "Q") 34 47
           None emptyWorld eq_refl eq_refl ltac:(lia)).
Defined.

(** C4 fails as stated when [to < from - 1]: with from 5 and to 2 the
    three spans are "0123", "23" and "23456789ABCQEF"; their concatenation
    is not the line, and the isolated item is not the substring [4, 2). *)
Lemma C4_counterexample :
  searchSegmentPositions [str "0123456789ABCQEF"] (str "Q") 5 2 None
    emptyWorld
  = (Return tt,
     appendConsole emptyWorld
       [Out (lineReport (str "Q") 5 2
               (str "23") (str "0123") (str "23") (str "23456789ABCQEF"))])
  /\ str "0123" ++ str "23" ++ str "23456789ABCQEF" <> str "0123456789ABCQEF"
  /\ str "23" <> range (5 - 1) 2 (str "0123456789ABCQEF").
Proof.
  split; [reflexivity|]. split; discriminate.
Qed.

(** C7, as the code has it.  Positional Range Lookup never throws and
    always logs one report: the "no line found" report when no body line
    carries the segment type, and otherwise the report of the first such
    line.  The isolated and the highlighted span are the range
    [from - 1, to), cut at the ends of the line, when [from - 1 <= to]; when
    [to < from - 1] they are the range [to, from - 1), since [substring]
    swaps crossed bounds. *)
Theorem C7_lookup_total (cnabBody : list jstring) (segmentType : jstring)
    (from to : Z) (arquivoPath : option jstring) (w : World) :
  searchSegmentPositions cnabBody segmentType from to arquivoPath w
  = (Return tt,
     appendConsole w
       [Out match find (hasSegment segmentType) cnabBody with
            | Some line =>
                lineReport segmentType from to
                  (range (Z.min (from - 1) to) (Z.max (from - 1) to) line)
                  (range 0 (from - 1) line)
                  (range (Z.min (from - 1) to) (Z.max (from - 1) to) line)
                  (rangeFrom to line)
            | None => noLineFound
            end])
  /\ (find (hasSegment segmentType) cnabBody = None
      <-> forallb (fun l => negb (hasSegment segmentType l)) cnabBody = true)
  /\ (forallb (fun l => negb (hasSegment (str "P") l)) cnabBody = true ->
      searchSegmentPositions cnabBody (str "P") 21 34 arquivoPath w
      = (Return tt, appendConsole w [Out noLineFound])).
Proof.
  split; [|split].
  - rewrite searchSegmentPositions_run.
    destruct (find (hasSegment segmentType) cnabBody) as [line|];
      [|reflexivity].
    unfold positionReport, highlightedSpan.
    destruct (Z.leb_spec (from - 1) to) as [H|H].
    + now rewrite Z.min_l, Z.max_r by lia.
    + now rewrite Z.min_r, Z.max_l by lia.
  - apply find_none_iff.
  - intros H. rewrite searchSegmentPositions_run.
    apply find_none_iff in H. now rewrite H.
Qed.

(** A body of "Q" lines only, from 21 and to 34 on segment "P": the
    "no line found" report. *)
Lemma C7_lookup_total_witness :
  searchSegmentPositions [qLine; qLine] (str "P") 21 34 None emptyWorld
  = (Return tt, appendConsole emptyWorld [Out noLineFound]).
Proof.
  destruct (C7_lookup_total [qLine; qLine] (str "P") 21 34 None emptyWorld)
    as (_ & _ & Hnone).
  exact (Hnone eq_refl).
Defined.

(** C7 fails as stated when [to < from - 1]: with from 10 and to 3 the
    requested span [9, 3) is empty, yet the report isolates and highlights
    the six code units of [3, 9). *)
Lemma C7_counterexample :
  searchSegmentPositions [str "ABCDEFGHIJKLMQOP"] (str "Q") 10 3 None
    emptyWorld
  = (Return tt,
     appendConsole emptyWorld
       [Out (lineReport (str "Q") 10 3
               (str "DEFGHI") (str "ABCDEFGHI") (str "DEFGHI")
               (str "DEFGHIJKLMQOP"))])
  /\ range (10 - 1) 3 (str "ABCDEFGHIJKLMQOP") = []
  /\ str "DEFGHI" <> [].
Proof.
  split; [reflexivity|]. split; [reflexivity | discriminate].
Qed.

(** C9. Positional Range Lookup is deterministic: its report depends on
    the body, the segment type and the two positions only, not on the world
    it runs in, and two calls in a row log the same report twice. *)
Theorem C9_lookup_deterministic (cnabBody : list jstring)
    (segmentType : jstring) (from to : Z) (arquivoPath : option jstring) :
  exists report : Text,
    forall w : World,
      searchSegmentPositions cnabBody segmentType from to arquivoPath w
      = (Return tt, appendConsole w [Out report])
      /\ (searchSegmentPositions cnabBody segmentType from to arquivoPath ;;;
          searchSegmentPositions cnabBody segmentType from to arquivoPath) w
         = (Return tt, appendConsole w [Out report; Out report]).
Proof.
  eexists. intros w. split.
  - apply searchSegmentPositions_run.
  - unfold bind. rewrite !searchSegmentPositions_run.
    now rewrite appendConsole_app.
Qed.

Lemma hasSegment_char (c : ascii) (line : jstring) :
  hasSegment [c] line = true <-> discriminator line = Some c.
Proof.
  rewrite hasSegment_true. unfold discriminator. split.
  - intros (c' & Hc & Heq). inversion Heq. now subst.
  - intros H. now exists c.
Qed.

(** C8. Every filtering operation reads the discriminator of a line at the
    same index 13, whatever segment type is asked for: Positional Range
    Lookup, Segment-Type Listing, Company-Name Search and Export all select
    their lines by [hasSegment], the test of the code unit at index 13. *)
Theorem C8_discriminator_index (toUpperCase : jstring -> jstring)
    (lines : list jstring) (segmentType companyName jsonPath : jstring)
    (from to : Z) (arquivoPath : option jstring) (w : World) :
  SEGMENT_INDEX CNAB_POSITIONS = 13
  /\ (forall line : jstring,
        hasSegment segmentType line = true
        <-> exists c, nth_error line 13 = Some c /\ segmentType = [c])
  /\ searchSegmentPositions lines segmentType from to arquivoPath w
     = (Return tt,
        appendConsole w
          [Out match find (hasSegment segmentType) lines with
               | Some line => positionReport segmentType from to line
               | None => noLineFound
               end])
  /\ searchBySegmentType lines segmentType w
     = (Return tt,
        appendConsole w
          [Out match filter (hasSegment segmentType) lines with
               | [] => noSegmentFound
               | found => listingReport segmentType found
               end])
  /\ (let found :=
        filter (fun line =>
                  hasSegment (str "Q") line
                  && JS.includes (range 33 73 line) (toUpperCase companyName))
               lines in
      searchByCompanyName toUpperCase lines companyName arquivoPath w
      = (Return tt,
         appendConsole w
           (map (fun line => Out (companyReport line)) found
            ++ match found with
               | [] => [Out noCompanyFound]
               | _ :: _ => []
               end)))
  /\ exportToJsonFile lines jsonPath w
     = (Return tt,
        match unwritable w jsonPath with
        | None =>
            appendConsole
              (recordWrite w jsonPath
                 (jsonOfParsedData
                    (map parseCnabQSegmentLine
                       (filter (hasSegment (str "Q")) lines))))
              [Out (exportedMessage jsonPath)]
        | Some e => appendConsole w [Err (exportFailed e)]
        end).
Proof.
  split; [reflexivity|].
  split; [intros line; apply hasSegment_true|].
  split; [apply searchSegmentPositions_run|].
  split; [apply searchBySegmentType_run|].
  split; [apply searchByCompanyName_run|].
  apply exportToJsonFile_run.
Qed.

(** C2. Company-Name Search reports exactly the body lines whose code unit
    at index 13 is "Q" and whose company-name slice [33, 73) contains the
    upper-cased pattern: one report per such line, in body order.  Each
    report has from 34 and to 33 + the length of the trimmed field value,
    and its highlighted span starts at index 33 and has that length, so it
    is never shorter than the trimmed company name.  For a "Q" line whose
    name field holds "ACME CORP LTDA", searching "ACME" gives one report,
    with from 34, to 47 and the span [33, 47). *)
Theorem C2_company_search (toUpperCase : jstring -> jstring)
    (cnabBody : list jstring) (companyName : jstring)
    (arquivoPath : option jstring) (w : World) :
  let found :=
    filter (fun line =>
              hasSegment (str "Q") line
              && JS.includes (range 33 73 line) (toUpperCase companyName))
           cnabBody in
  searchByCompanyName toUpperCase cnabBody companyName arquivoPath w
  = (Return tt,
     appendConsole w
       (map (fun line =>
               let n := length (JS.trim (range 33 73 line)) in
               Out (lineReport (str "Q") 34 (33 + Z.of_nat n)
                      (range 33 (33 + Z.of_nat n) line)
                      (range 0 33 line)
                      (range 33 (33 + Z.of_nat n) line)
                      (rangeFrom (33 + Z.of_nat n) line)))
            found
        ++ match found with
           | [] => [Out noCompanyFound]
           | _ :: _ => []
           end))
  /\ (forall line : jstring,
        In line found
        <-> In line cnabBody
            /\ nth_error line 13 = Some "Q"%char
            /\ contains (range 33 73 line) (toUpperCase companyName))
  /\ (forall line : jstring,
        let n := length (JS.trim (range 33 73 line)) in
        length (range 33 (33 + Z.of_nat n) line) = n)
  /\ (forall line : jstring,
        nth_error line 13 = Some "Q"%char ->
        range 33 73 line = pad (str "ACME CORP LTDA") 40 ->
        toUpperCase (str "ACME") = str "ACME" ->
        searchByCompanyName toUpperCase [line] (str "ACME") arquivoPath w
        = (Return tt,
           appendConsole w
             [Out (lineReport (str "Q") 34 47
                     (str "ACME CORP LTDA")
                     (range 0 33 line)
                     (str "ACME CORP LTDA")
                     (rangeFrom 47 line))])).
Proof.
  intros found. split; [|split; [|split]].
  - apply searchByCompanyName_run.
  - intros line. unfold found.
    rewrite filter_In, andb_true_iff, includes_spec.
    change (str "Q") with ["Q"%char]. rewrite hasSegment_char.
    reflexivity.
  - intros line. apply companySpan_length.
  - intros line HQ Hfield Hupper.
    rewrite searchByCompanyName_run, Hupper.
    assert (Hseg : hasSegment (str "Q") line = true)
      by now apply (hasSegment_char "Q" line).
    assert (Hmatch : companyMatches (str "ACME") [line] = [line]).
    { unfold companyMatches, companyField. cbn [filter].
      now rewrite Hseg, Hfield. }
    assert (Hlen : trimmedNameLength line = 14%nat).
    { unfold trimmedNameLength, companyField. now rewrite Hfield. }
    assert (Hspan : range 33 47 line = str "ACME CORP LTDA").
    { pose proof (companySpan_name line) as H.
      rewrite Hlen in H. change (33 + Z.of_nat 14) with 47 in H.
      unfold companyField in H. rewrite Hfield in H.
      now rewrite H. }
    rewrite Hmatch. cbn [map app].
    unfold companyReport. rewrite Hlen.
    change (33 + Z.of_nat 14) with 47. now rewrite Hspan.
Qed.

(** The sample "Q" line between two other lines, searched in lower case
    with the ASCII upper-casing: one report, from 34 and to 47. *)
Lemma C2_company_search_witness :
  searchByCompanyName asciiUpper
    [pLine; qLine; sampleLine "Q" (pad (str "OTHER SA") 40)]
    (str "acme") None emptyWorld
  = (Return tt,
     appendConsole emptyWorld
       [Out (lineReport (str "Q") 34 47
               (str "ACME CORP LTDA")
               (repeat "."%char 13 ++ str "Q" ++ repeat "."%char 19)
               (str "ACME CORP LTDA")
               (repeat " "%char 26))])
  /\ searchByCompanyName asciiUpper [qLine] (str "ACME") None emptyWorld
     = (Return tt,
        appendConsole emptyWorld
          [Out (lineReport (str "Q") 34 47
                  (str "ACME CORP LTDA") (range 0 33 qLine)
                  (str "ACME CORP LTDA") (rangeFrom 47 qLine))]).
Proof.
  destruct (C2_company_search asciiUpper
              [pLine; qLine; sampleLine "Q" (pad (str "OTHER SA") 40)]
              (str "acme") None emptyWorld)
    as (Hrun & _ & _ & Hacme).
  split.
  - rewrite Hrun. reflexivity.
  - exact (Hacme qLine eq_refl eq_refl eq_refl).
Defined.

(** * Beyond the claims: the whole run *)

Lemma emits_ret : emits (ret tt) [].
Proof. intros w. unfold ret. now rewrite appendConsole_nil. Qed.

Lemma emits_bind (m k : IO unit) (a b : list LogEntry) :
  emits m a -> emits k b -> emits (m ;;; k) (a ++ b).
Proof.
  intros Hm Hk w. unfold bind. rewrite Hm, Hk.
  now rewrite appendConsole_app.
Qed.

Lemma emits_when (c : bool) (m : IO unit) (a : list LogEntry) :
  emits m a -> emits (when c m) (if c then a else []).
Proof. intros Hm. destruct c; [exact Hm | exact emits_ret]. Qed.

Lemma emits_lookup (lines : list jstring) (segmentType : jstring)
    (from to : Z) (arquivoPath : option jstring) :
  emits (searchSegmentPositions lines segmentType from to arquivoPath)
    [Out (lookupReport segmentType from to lines)].
Proof. intros w. apply searchSegmentPositions_run. Qed.

Lemma emits_listing (lines : list jstring) (segmentType : jstring) :
  emits (searchBySegmentType lines segmentType)
    [Out (listingOf segmentType lines)].
Proof. intros w. apply searchBySegmentType_run. Qed.

Lemma emits_company (toUpperCase : jstring -> jstring)
    (lines : list jstring) (companyName : jstring)
    (arquivoPath : option jstring) :
  emits (searchByCompanyName toUpperCase lines companyName arquivoPath)
    (companyEntries (toUpperCase companyName) lines).
Proof. intros w. apply searchByCompanyName_run. Qed.

(** The three query modes of a run log [queryEntries] and do nothing
    else. *)
Lemma emits_queries (toUpperCase : jstring -> jstring)
    (options : Options.t) (lines : list jstring) :
  emits
    ((match Options.from options, Options.to options,
             Options.segmento options with
      | Some from, Some to, Some s =>
          when (JS.truthyNumber from && JS.truthyNumber to
                && JS.truthyString s)
               (searchSegmentPositions lines (toUpperCase s) from to
                  (Options.arquivo options))
      | _, _, _ => ret tt
      end) ;;;
     when (Options.buscar options)
       ((match Options.segmento options with
         | Some s =>
             when (JS.truthyString s)
                  (searchBySegmentType lines (toUpperCase s))
         | None => ret tt
         end) ;;;
        (match Options.nome options with
         | Some n =>
             when (JS.truthyString n)
                  (searchByCompanyName toUpperCase lines n
                     (Options.arquivo options))
         | None => ret tt
         end)))
    (queryEntries toUpperCase options lines).
Proof.
  unfold queryEntries. apply emits_bind.
  - destruct (Options.from options) as [from|]; [|exact emits_ret].
    destruct (Options.to options) as [to|]; [|exact emits_ret].
    destruct (Options.segmento options) as [s|]; [|exact emits_ret].
    apply emits_when, emits_lookup.
  - apply emits_when, emits_bind.
    + destruct (Options.segmento options) as [s|]; [|exact emits_ret].
      apply emits_when, emits_listing.
    + destruct (Options.nome options) as [n|]; [|exact emits_ret].
      apply emits_when, emits_company.
Qed.

Lemma bind_assoc_unit (a b c : IO unit) (w : World) :
  (a ;;; b ;;; c) w = ((a ;;; b) ;;; c) w.
Proof.
  unfold bind. destruct (a w) as [[[]|e] w1]; reflexivity.
Qed.

(** A run logs the entries of the query modes over the body and then
    exports the full line sequence; it returns normally for all options. *)
Lemma processCommandArguments_run (toUpperCase : jstring -> jstring)
    (options : Options.t) (cnabData : Document) (w : World) :
  processCommandArguments toUpperCase options cnabData w
  = (Return tt,
     exportStep options (full cnabData)
       (appendConsole w
          (queryEntries toUpperCase options (body cnabData)))).
Proof.
  unfold processCommandArguments. cbv zeta.
  rewrite bind_assoc_unit. unfold bind at 1.
  rewrite (emits_queries toUpperCase options (body cnabData) w).
  unfold exportStep.
  destruct (Options.json options) as [j|]; [|reflexivity].
  destruct (JS.truthyString j); [|reflexivity].
  apply exportToJsonFile_run.
Qed.

Lemma truthyString_true (s : jstring) : s <> [] -> JS.truthyString s = true.
Proof. destruct s; [congruence | reflexivity]. Qed.

Lemma truthyNumber_true (z : Z) : z <> 0 -> JS.truthyNumber z = true.
Proof.
  intros H. unfold JS.truthyNumber.
  now destruct (Z.eqb_spec z 0).
Qed.

(** X1. With every mode asked for at once, a run logs the lookup report,
    then the segment listing, then the company reports, all three over the
    body, and only then exports the full line sequence. *)
Theorem X1_run_order (toUpperCase : jstring -> jstring) (from to : Z)
    (segmento nome jsonPath : jstring) (arquivo : option jstring)
    (cnabData : Document) (w : World) :
  from <> 0 -> to <> 0 -> segmento <> [] -> nome <> [] -> jsonPath <> [] ->
  processCommandArguments toUpperCase
    {| Options.from := Some from;
       Options.to := Some to;
       Options.segmento := Some segmento;
       Options.buscar := true;
       Options.nome := Some nome;
       Options.json := Some jsonPath;
       Options.arquivo := arquivo |}
    cnabData w
  = (Return tt,
     afterExport (full cnabData) jsonPath
       (appendConsole w
          ([ Out (lookupReport (toUpperCase segmento) from to
                    (body cnabData));
             Out (listingOf (toUpperCase segmento) (body cnabData)) ]
           ++ companyEntries (toUpperCase nome) (body cnabData)))).
Proof.
  intros Hfrom Hto Hseg Hnome Hjson.
  rewrite processCommandArguments_run.
  unfold exportStep, queryEntries, truthyOption. cbn [Options.from Options.to
    Options.segmento Options.buscar Options.nome Options.json].
  now rewrite (truthyNumber_true _ Hfrom), (truthyNumber_true _ Hto),
    (truthyString_true _ Hseg), (truthyString_true _ Hnome),
    (truthyString_true _ Hjson).
Qed.

(** Every mode at once on the sample document: a lookup report, a listing,
    three company reports and the export message. *)
Lemma X1_run_order_witness :
  length
    (console
       (snd (processCommandArguments asciiUpper
               {| Options.from := Some 34;
                  Options.to := Some 47;
                  Options.segmento := Some (str "q");
                  Options.buscar := true;
                  Options.nome := Some (str "acme");
                  Options.json := Some (str "out.json");
                  Options.arquivo := None |}
               sampleDocument emptyWorld)))
  = 6%nat.
Proof.
  rewrite (X1_run_order asciiUpper 34 47 (str "q") (str "acme")
             (str "out.json") None sampleDocument emptyWorld
             ltac:(discriminate) ltac:(discriminate) ltac:(discriminate)
             ltac:(discriminate) ltac:(discriminate)).
  reflexivity.
Defined.



Lemma companyEntries_nonempty (pattern : jstring) (lines : list jstring) :
  (1 <= length (companyEntries pattern lines))%nat.
Proof.
  unfold companyEntries.
  destruct (companyMatches pattern lines); cbn; lia.
Qed.

(** The argument check accepts exactly when one of the three conditions of
    the source holds, and never returns [false]. *)
Lemma setupCLI_check_cases (argv : Options.t) :
  (setupCLI_check argv = Return true
   /\ (Options.buscar argv
       && (truthyOption JS.truthyString (Options.nome argv)
           || truthyOption JS.truthyString (Options.segmento argv))
       || truthyOption JS.truthyNumber (Options.from argv)
          && truthyOption JS.truthyNumber (Options.to argv)
          && truthyOption JS.truthyString (Options.segmento argv)
       || truthyOption JS.truthyString (Options.json argv)) = true)
  \/ (setupCLI_check argv = Throw invalidArguments
      /\ (Options.buscar argv
          && (truthyOption JS.truthyString (Options.nome argv)
              || truthyOption JS.truthyString (Options.segmento argv)))
         = false
      /\ (truthyOption JS.truthyNumber (Options.from argv)
          && truthyOption JS.truthyNumber (Options.to argv)
          && truthyOption JS.truthyString (Options.segmento argv)) = false
      /\ truthyOption JS.truthyString (Options.json argv) = false).
Proof.
  unfold setupCLI_check.
  destruct (Options.buscar argv
            && (truthyOption JS.truthyString (Options.nome argv)
                || truthyOption JS.truthyString (Options.segmento argv)));
    [now left|].
  destruct (truthyOption JS.truthyNumber (Options.from argv)
            && truthyOption JS.truthyNumber (Options.to argv)
            && truthyOption JS.truthyString (Options.segmento argv));
    [now left|].
  destruct (truthyOption JS.truthyString (Options.json argv));
    [now left | now right].
Qed.

(** The query modes log something exactly when the lookup or the search
    condition of the argument check holds. *)
Lemma queryEntries_length (toUpperCase : jstring -> jstring)
    (options : Options.t) (lines : list jstring) :
  (0 <? length (queryEntries toUpperCase options lines))%nat
  = (Options.buscar options
     && (truthyOption JS.truthyString (Options.nome options)
         || truthyOption JS.truthyString (Options.segmento options))
     || truthyOption JS.truthyNumber (Options.from options)
        && truthyOption JS.truthyNumber (Options.to options)
        && truthyOption JS.truthyString (Options.segmento options)).
Proof.
  unfold queryEntries, truthyOption.
  destruct (Options.from options) as [f|], (Options.to options) as [t|],
    (Options.segmento options) as [s|], (Options.buscar options),
    (Options.nome options) as [n|];
    try destruct (JS.truthyNumber f); try destruct (JS.truthyNumber t);
    try destruct (JS.truthyString s); try destruct (JS.truthyString n);
    cbn [andb orb app length]; try reflexivity;
    rewrite ?length_app; cbn [length];
    match goal with
    | |- context [companyEntries ?p ?l] =>
        pose proof (companyEntries_nonempty p l) as Hc;
        destruct (length (companyEntries p l)); [lia | reflexivity]
    end.
Qed.


(** X3. Options the argument check rejects make a run do nothing: the
    check throws its one message and the run leaves the world as it is. *)
Theorem X3_rejected_options_do_nothing (toUpperCase : jstring -> jstring)
    (options : Options.t) (cnabData : Document) (w : World)
    (message : jstring) :
  setupCLI_check options = Throw message ->
  message = invalidArguments
  /\ processCommandArguments toUpperCase options cnabData w = (Return tt, w).
Proof.
  intros Hcheck.
  destruct (setupCLI_check_cases options)
    as [(Hok & _)|(Hthrow & Hsearch & Hlookup & Hjson)]; [congruence|].
  split; [congruence|].
  rewrite processCommandArguments_run.
  pose proof (queryEntries_length toUpperCase options (body cnabData)) as Hq.
  rewrite Hsearch, Hlookup in Hq. cbn in Hq.
  destruct (queryEntries toUpperCase options (body cnabData)) as [|e q];
    [|discriminate].
  rewrite appendConsole_nil.
  unfold exportStep. unfold truthyOption in Hjson.
  destruct (Options.json options) as [j|]; [|reflexivity].
  now rewrite Hjson.
Qed.

(** From 0 is falsy: [-f 0 -t 40 -s q] is rejected and does nothing. *)
Lemma X3_rejected_options_do_nothing_witness :
  processCommandArguments asciiUpper (lookupOptions 0 40 (str "q"))
    sampleDocument emptyWorld
  = (Return tt, emptyWorld).
Proof.
  exact (proj2 (X3_rejected_options_do_nothing asciiUpper
                  (lookupOptions 0 40 (str "q")) sampleDocument emptyWorld
                  invalidArguments eq_refl)).
Defined.


(** * Beyond the claims: the entry point *)

Lemma main_body_chosenPath (toUpperCase : jstring -> jstring)
    (options : Options.t) (dirname : jstring)
    (path_resolve : jstring -> jstring) (elapsed : jstring) (w : World) :
  main toUpperCase (ret options) dirname path_resolve elapsed w
  = (tryCatch
       (cnabData <- readCnabFile (chosenPath options dirname path_resolve) ;;
        processCommandArguments toUpperCase options cnabData)
       (fun message => console_error (processingFailed message)) ;;;
     log (timerLine elapsed)) w.
Proof. reflexivity. Qed.


(** X6. When the file cannot be read, [main] logs the processing error
    with the message of the failure, then the timer line, and does nothing
    else: no query runs and no file is written. *)
Theorem X6_main_unreadable_file (toUpperCase : jstring -> jstring)
    (options : Options.t) (dirname : jstring)
    (path_resolve : jstring -> jstring) (elapsed message : jstring)
    (w : World) :
  readable w (chosenPath options dirname path_resolve) = Throw message ->
  main toUpperCase (ret options) dirname path_resolve elapsed w
  = (Return tt,
     appendConsole w
       [Err (processingFailed message); Out (timerLine elapsed)]).
Proof.
  intros Hread. rewrite main_body_chosenPath.
  unfold bind, tryCatch. rewrite readCnabFile_run, Hread.
  unfold console_error, log, emit. now rewrite appendConsole_app.
Qed.

(** No file at all, every mode asked for: the error and the timer only. *)
Lemma X6_main_unreadable_file_witness :
  main asciiUpper
    (ret (searchOptions (str "q") (str "acme") (str "out.json")))
    (str "/app") (fun p => p) (str "1ms") emptyWorld
  = (Return tt,
     appendConsole emptyWorld
       [Err (processingFailed (str "ENOENT")); Out (timerLine (str "1ms"))]).
Proof.
  exact (X6_main_unreadable_file asciiUpper
           (searchOptions (str "q") (str "acme") (str "out.json"))
           (str "/app") (fun p => p) (str "1ms") (str "ENOENT") emptyWorld
           eq_refl).
Defined.

(** X7. When the file can be read, [main] runs the operations on the
    document of its contents and then logs the timer line; the file is the
    resolved [arquivo] option, or [cnabExample.rem] next to the script when
    that option is absent or empty. *)
Theorem X7_main_readable_file (toUpperCase : jstring -> jstring)
    (options : Options.t) (dirname : jstring)
    (path_resolve : jstring -> jstring) (elapsed contents : jstring)
    (w : World) :
  readable w
    (match Options.arquivo options with
     | Some (c :: arquivo) => path_resolve (c :: arquivo)
     | _ => dirname ++ str "/cnabExample.rem"
     end)
  = Return contents ->
  main toUpperCase (ret options) dirname path_resolve elapsed w
  = (Return tt,
     appendConsole
       (snd (processCommandArguments toUpperCase options
               (documentOf contents) w))
       [Out (timerLine elapsed)]).
Proof.
  intros Hread. rewrite main_body_chosenPath.
  assert (Hpath :
    chosenPath options dirname path_resolve
    = match Options.arquivo options with
      | Some (c :: arquivo) => path_resolve (c :: arquivo)
      | _ => dirname ++ str "/cnabExample.rem"
      end).
  { unfold chosenPath.
    destruct (Options.arquivo options) as [[|c a]|]; reflexivity. }
  unfold bind, tryCatch. rewrite readCnabFile_run, Hpath, Hread.
  cbv zeta. fold (documentOf contents). cbv iota beta.
  now rewrite !processCommandArguments_run.
Qed.

(** A six-line file and [-f 34 -t 47 -s q]: the lookup report of the one
    "Q" body line, then the timer line. *)
Lemma X7_main_readable_file_witness :
  console
    (snd (main asciiUpper (ret (lookupOptions 34 47 (str "q")))
            (str "/app") (fun p => p) (str "1ms")
            (worldWithFile
               (JS.join [pLine; pLine; qLine; pLine; pLine; pLine] [nl]))))
  = [ Out (lineReport (str "Q") 34 47
             (str "ACME CORP LTDA")
             (repeat "."%char 13 ++ str "Q" ++ repeat "."%char 19)
             (str "ACME CORP LTDA")
             (repeat " "%char 26));
      Out (timerLine (str "1ms")) ].
Proof.
  rewrite (X7_main_readable_file asciiUpper (lookupOptions 34 47 (str "q"))
             (str "/app") (fun p => p) (str "1ms")
             (JS.join [pLine; pLine; qLine; pLine; pLine; pLine] [nl])
             (worldWithFile
                (JS.join [pLine; pLine; qLine; pLine; pLine; pLine] [nl]))
             eq_refl).
  reflexivity.
Defined.

(** * Beyond the claims: the loader *)

Lemma split_length (s : jstring) (sep : ascii) :
  length (JS.split s sep) = S (count_occ ascii_dec s sep).
Proof.
  induction s as [|c s IH]; [reflexivity|]. simpl.
  destruct (Ascii.eqb_spec c sep) as [->|Hc].
  - destruct (ascii_dec sep sep); [|congruence]. simpl. now rewrite IH.
  - destruct (ascii_dec c sep); [congruence|].
    pose proof (split_not_nil s sep) as Hne.
    destruct (JS.split s sep); [congruence | exact IH].
Qed.

Lemma split_snoc (s : jstring) (sep : ascii) :
  JS.split (s ++ [sep]) sep = JS.split s sep ++ [[]].
Proof.
  induction s as [|c s IH]; simpl.
  - now rewrite Ascii.eqb_refl.
  - destruct (Ascii.eqb_spec c sep) as [->|Hc].
    + now rewrite IH.
    + rewrite IH. pose proof (split_not_nil s sep) as Hne.
      destruct (JS.split s sep); [congruence | reflexivity].
Qed.

Lemma skipn_last {A : Type} (l : list A) (d : A) :
  l <> [] -> skipn (length l - 1) l = [last l d].
Proof.
  intros Hne.
  rewrite (app_removelast_last d Hne) at 1 2.
  rewrite length_app, skipn_app. cbn [length].
  replace (length (removelast l) + 1 - 1)%nat with (length (removelast l))
    by lia.
  now rewrite skipn_all, Nat.sub_diag.
Qed.

Lemma readCnabFile_document (filePath contents : jstring) (w : World) :
  readable w filePath = Return contents ->
  readCnabFile filePath w = (Return (documentOf contents), w).
Proof. intros H. now rewrite readCnabFile_run, H. Qed.

(** X8. Loading changes nothing in the world.  The document has one line
    more than the file has newlines, so it is never empty; the header and
    the trailer hold two lines each, or all lines of a shorter file; and
    header, body and trailer put together are the file exactly when it has
    at least four lines: in a shorter file header and trailer overlap. *)
Theorem X8_partitions_tile (filePath contents : jstring) (w : World) :
  readable w filePath = Return contents ->
  exists doc : Document,
    readCnabFile filePath w = (Return doc, w)
    /\ length (full doc) = S (count_occ ascii_dec contents nl)
    /\ length (header doc) = Nat.min 2 (length (full doc))
    /\ length (body doc) = (length (full doc) - 4)%nat
    /\ length (tail doc) = Nat.min 2 (length (full doc))
    /\ (header doc ++ body doc ++ tail doc = full doc
        <-> (4 <= length (full doc))%nat).
Proof.
  intros Hread. exists (documentOf contents).
  split; [now apply readCnabFile_document|].
  unfold documentOf. cbn [full header body tail].
  set (lines := JS.split contents nl).
  assert (Hlen : length lines = S (count_occ ascii_dec contents nl))
    by apply split_length.
  split; [exact Hlen|].
  assert (Hh : length (firstn 2 lines) = Nat.min 2 (length lines))
    by apply length_firstn.
  assert (Hb : length (skipn 2 (firstn (length lines - 2) lines))
               = (length lines - 4)%nat)
    by (rewrite length_skipn, length_firstn; lia).
  assert (Ht : length (skipn (length lines - 2) lines)
               = Nat.min 2 (length lines))
    by (rewrite length_skipn; lia).
  repeat (split; [assumption|]).
  split.
  - intros H. apply (f_equal (@length _)) in H.
    rewrite !length_app, Hh, Hb, Ht in H. lia.
  - intros H4.
    replace (firstn 2 lines) with (firstn 2 (firstn (length lines - 2) lines))
      by (rewrite firstn_firstn; f_equal; lia).
    rewrite app_assoc, firstn_skipn. apply firstn_skipn.
Qed.

(** A file of three lines: header and trailer overlap. *)
Lemma X8_partitions_tile_witness :
  exists doc : Document,
    readCnabFile (str "cnab.rem")
      (worldWithFile (JS.join [str "A"; str "B"; str "C"] [nl]))
    = (Return doc, worldWithFile (JS.join [str "A"; str "B"; str "C"] [nl]))
    /\ length (full doc)
       = S (count_occ ascii_dec (JS.join [str "A"; str "B"; str "C"] [nl]) nl)
    /\ length (header doc) = Nat.min 2 (length (full doc))
    /\ length (body doc) = (length (full doc) - 4)%nat
    /\ length (tail doc) = Nat.min 2 (length (full doc))
    /\ (header doc ++ body doc ++ tail doc = full doc
        <-> (4 <= length (full doc))%nat).
Proof.
  exact (X8_partitions_tile (str "cnab.rem")
           (JS.join [str "A"; str "B"; str "C"] [nl])
           (worldWithFile (JS.join [str "A"; str "B"; str "C"] [nl]))
           eq_refl).
Defined.

(** X9. A file that ends with a newline loads with an empty last line: its
    lines are those of the text before that newline followed by the empty
    string, and its trailer is the last of those lines and the empty
    string. *)
Theorem X9_trailing_newline (filePath contents : jstring) (w : World) :
  readable w filePath = Return (contents ++ [nl]) ->
  exists doc : Document,
    readCnabFile filePath w = (Return doc, w)
    /\ full doc = JS.split contents nl ++ [[]]
    /\ tail doc = [last (JS.split contents nl) []; []].
Proof.
  intros Hread. exists (documentOf (contents ++ [nl])).
  split; [now apply readCnabFile_document|].
  unfold documentOf. cbn [full tail]. rewrite split_snoc.
  split; [reflexivity|].
  pose proof (split_not_nil contents nl) as Hne.
  set (lines := JS.split contents nl) in *.
  assert (Hpos : (1 <= length lines)%nat)
    by (destruct lines; [congruence | cbn; lia]).
  rewrite length_app, skipn_app. cbn [length].
  replace (length lines + 1 - 2)%nat with (length lines - 1)%nat by lia.
  rewrite (skipn_last lines [] Hne).
  now replace (length lines - 1 - length lines)%nat with 0%nat by lia.
Qed.

(** Three lines and a final newline: the trailer is the third line and the
    empty string. *)
Lemma X9_trailing_newline_witness :
  exists doc : Document,
    readCnabFile (str "cnab.rem")
      (worldWithFile (JS.join [str "A"; str "B"; str "C"] [nl] ++ [nl]))
    = (Return doc,
       worldWithFile (JS.join [str "A"; str "B"; str "C"] [nl] ++ [nl]))
    /\ full doc = [str "A"; str "B"; str "C"; []]
    /\ tail doc = [str "C"; []].
Proof.
  exact (X9_trailing_newline (str "cnab.rem")
           (JS.join [str "A"; str "B"; str "C"] [nl])
           (worldWithFile (JS.join [str "A"; str "B"; str "C"] [nl] ++ [nl]))
           eq_refl).
Defined.

(** * Beyond the claims: field extraction *)

Lemma range_short {A : Type} (a b : Z) (l : list A) :
  Z.of_nat (length l) <= a -> range a b l = [].
Proof.
  intros H. unfold range. rewrite skipn_all2 by lia. apply firstn_nil.
Qed.

Lemma range_full_width {A : Type} (a b : Z) (l : list A) :
  0 <= a <= b -> b <= Z.of_nat (length l) ->
  length (range a b l) = Z.to_nat (b - a).
Proof. intros Hab Hb. rewrite range_length. lia. Qed.

Lemma range_width {A : Type} (a b : Z) (width : nat) (l : list A) :
  (Z.to_nat b - Z.to_nat a)%nat = width ->
  (length (range a b l) <= width)%nat.
Proof. intros <-. rewrite range_length. apply Nat.le_min_l. Qed.

Lemma trim_range_width (a b : Z) (width : nat) (line : jstring) :
  (Z.to_nat b - Z.to_nat a)%nat = width ->
  (length (JS.trim (range a b line)) <= width)%nat.
Proof.
  intros H. etransitivity; [apply trim_length | now apply range_width].
Qed.

(** X10. No extracted value is longer than its range: at most 40, 40, 15,
    8, 15 and 3 code units. *)
Theorem X10_values_fit_ranges (line : jstring) :
  Forall (fun kv =>
            Z.of_nat (length (value (snd kv))) <= to (snd kv) - from (snd kv))
         (parseCnabQSegmentLine line)
  /\ Forall2 (fun v width => (length v <= width)%nat)
       (fieldValues (parseCnabQSegmentLine line)) [40; 40; 15; 8; 15; 3]%nat.
Proof.
  rewrite parseCnabQSegmentLine_fields. unfold qFields, fieldValues.
  cbn [map snd value from to].
  pose proof (trim_range_width 33 73 40 line eq_refl) as H1.
  pose proof (trim_range_width 73 113 40 line eq_refl) as H2.
  pose proof (trim_range_width 113 128 15 line eq_refl) as H3.
  pose proof (range_width 128 136 8 line eq_refl) as H4.
  pose proof (trim_range_width 136 151 15 line eq_refl) as H5.
  pose proof (range_width 151 154 3 line eq_refl) as H6.
  split.
  - repeat (apply Forall_cons; [cbn [snd value from to]; lia|]).
    apply Forall_nil.
  - repeat (apply Forall2_cons; [assumption|]). apply Forall2_nil.
Qed.

(** X11. A line of at most 33 code units, which has no company-name field,
    still yields the six fields, every value empty. *)
Theorem X11_short_line_fields (line : jstring) :
  (length line <= 33)%nat ->
  parseCnabQSegmentLine line
  = [ ("nome"%string, {| value := []; from := 33; to := 73 |});
      ("endereco"%string, {| value := []; from := 73; to := 113 |});
      ("bairro"%string, {| value := []; from := 113; to := 128 |});
      ("cep"%string, {| value := []; from := 128; to := 136 |});
      ("cidade"%string, {| value := []; from := 136; to := 151 |});
      ("estado"%string, {| value := []; from := 151; to := 154 |}) ].
Proof.
  intros H. rewrite parseCnabQSegmentLine_fields. unfold qFields.
  now rewrite !range_short by lia.
Qed.

Lemma X11_short_line_fields_witness :
  fieldValues (parseCnabQSegmentLine (str "0123456789ABCQ"))
  = [ []; []; []; []; []; [] ].
Proof.
  rewrite (X11_short_line_fields (str "0123456789ABCQ") ltac:(cbn; lia)).
  reflexivity.
Defined.

(** X12. On a line of at least 154 code units the postal code holds
    exactly 8 code units and the state exactly 3, white space included;
    they are the code units at 128..135 and 151..153. *)
Theorem X12_full_line_codes (line : jstring) :
  (154 <= length line)%nat ->
  exists nome endereco bairro cep cidade estado,
    fieldValues (parseCnabQSegmentLine line)
    = [nome; endereco; bairro; cep; cidade; estado]
    /\ length cep = 8%nat /\ length estado = 3%nat
    /\ (forall k, (k < 8)%nat -> nth_error cep k = nth_error line (128 + k))
    /\ (forall k, (k < 3)%nat ->
                  nth_error estado k = nth_error line (151 + k)).
Proof.
  intros H. rewrite parseCnabQSegmentLine_fields.
  exists (JS.trim (range 33 73 line)), (JS.trim (range 73 113 line)),
    (JS.trim (range 113 128 line)), (range 128 136 line),
    (JS.trim (range 136 151 line)), (range 151 154 line).
  split; [reflexivity|].
  split; [rewrite range_full_width; lia|].
  split; [rewrite range_full_width; lia|].
  split; intros k Hk; rewrite range_nth_error.
  - destruct (Z.ltb_spec (Z.max 128 0 + Z.of_nat k) 136); [reflexivity|lia].
  - destruct (Z.ltb_spec (Z.max 151 0 + Z.of_nat k) 154); [reflexivity|lia].
Qed.

Lemma X12_full_line_codes_witness :
  exists nome endereco bairro cep cidade estado,
    fieldValues
      (parseCnabQSegmentLine
         (sampleLine "Q"
            (pad (str "ACME") 40 ++ pad (str "RUA A") 40
             ++ pad (str "CENTRO") 15 ++ str "01001 00"
             ++ pad (str "SAO PAULO") 15 ++ str "SP ")))
    = [nome; endereco; bairro; cep; cidade; estado]
    /\ cep = str "01001 00" /\ estado = str "SP ".
Proof.
  destruct (X12_full_line_codes
              (sampleLine "Q"
                 (pad (str "ACME") 40 ++ pad (str "RUA A") 40
                  ++ pad (str "CENTRO") 15 ++ str "01001 00"
                  ++ pad (str "SAO PAULO") 15 ++ str "SP "))
              ltac:(cbn; lia))
    as (nome & endereco & bairro & cep & cidade & estado & Hv & _).
  exists nome, endereco, bairro, cep, cidade, estado.
  split; [exact Hv|].
  injection Hv as _ _ _ Hcep _ Hestado.
  now rewrite <- Hcep, <- Hestado.
Defined.

(** * Beyond the claims: reports *)

Lemma three_spans {A : Type} (a b : nat) (l : list A) :
  (a <= b)%nat -> firstn a l ++ firstn (b - a) (skipn a l) ++ skipn b l = l.
Proof.
  intros H.
  replace b with ((b - a) + a)%nat at 2 by lia.
  rewrite <- skipn_skipn, firstn_skipn. apply firstn_skipn.
Qed.

Lemma substring_prefix_clamped (s : jstring) (a : Z) :
  JS.substring s 0 (Some a) = firstn (JS.clampIndex a (length s)) s.
Proof.
  unfold JS.substring, JS.clampIndex.
  change (Z.to_nat 0) with 0%nat. cbn [Nat.min Nat.max].
  now rewrite Nat.sub_0_r.
Qed.

Lemma substring_suffix_clamped (s : jstring) (b : Z) :
  JS.substring s b None = skipn (JS.clampIndex b (length s)) s.
Proof.
  rewrite substring_suffix. unfold rangeFrom, JS.clampIndex.
  now rewrite skipn_min_length.
Qed.

(** X13. The line a report renders is the original line exactly when the
    two positions, clamped to the line, are in order.  When they cross, the
    rendering is longer than the line by twice the distance between them:
    the code units between the two positions appear three times. *)
Theorem X13_rendering_exact_iff (line segmentType : jstring) (from to : Z)
    (caminho : option jstring) :
  exists prefix highlighted suffix : jstring,
    messageLog line segmentType from to caminho
    = lineReport segmentType from to highlighted prefix highlighted suffix
    /\ length (prefix ++ highlighted ++ suffix)
       = (length line
          + 2 * (JS.clampIndex (from - 1) (length line)
                 - JS.clampIndex to (length line)))%nat
    /\ (prefix ++ highlighted ++ suffix = line
        <-> (JS.clampIndex (from - 1) (length line)
             <= JS.clampIndex to (length line))%nat).
Proof.
  exists (JS.substring line 0 (Some (from - 1))),
    (JS.substring line (from - 1) (Some to)),
    (JS.substring line to None).
  split; [reflexivity|].
  rewrite substring_prefix_clamped, substring_suffix_clamped.
  unfold JS.substring.
  set (a := JS.clampIndex (from - 1) (length line)).
  set (b := JS.clampIndex to (length line)).
  assert (Ha : (a <= length line)%nat) by (subst a; unfold JS.clampIndex; lia).
  assert (Hb : (b <= length line)%nat) by (subst b; unfold JS.clampIndex; lia).
  assert (Hlen :
    length (firstn a line
            ++ firstn (Nat.max a b - Nat.min a b) (skipn (Nat.min a b) line)
            ++ skipn b line)
    = (length line + 2 * (a - b))%nat).
  { rewrite !length_app, !length_firstn, !length_skipn. lia. }
  split; [exact Hlen|]. split.
  - intros H. rewrite H in Hlen. lia.
  - intros H. rewrite Nat.min_l, Nat.max_r by exact H.
    now apply three_spans.
Qed.

Lemma hd_firstn {A : Type} (n : nat) (c : A) (l : list A) :
  firstn (S n) (c :: l) = c :: firstn n l.
Proof. reflexivity. Qed.

(** The span of a company report is a prefix of the company-name field. *)
Lemma companySpan_prefix (line : jstring) :
  range 33 (33 + Z.of_nat (trimmedNameLength line)) line
  = firstn (trimmedNameLength line) (companyField line).
Proof.
  assert (Hw : (trimmedNameLength line <= 40)%nat)
    by (unfold trimmedNameLength, companyField;
        now apply trim_range_width).
  unfold companyField, range. rewrite firstn_firstn. f_equal. lia.
Qed.

(** X14. The span Company-Name Search highlights is the company name that
    export extracts exactly when the name field does not start with white
    space, or is all white space: a name with leading white space is
    highlighted shifted to the left, its last code units cut off. *)
Theorem X14_span_is_name_iff (line : jstring) (arquivoPath : option jstring) :
  exists (nome : Field) (others : Obj Field)
         (prefix highlighted suffix : jstring),
    parseCnabQSegmentLine line = ("nome"%string, nome) :: others
    /\ messageLog line (str "Q")
         (START (COMPANY_NAME CNAB_POSITIONS) + 1)
         (START (COMPANY_NAME CNAB_POSITIONS)
          + Z.of_nat
              (length
                 (JS.trim
                    (JS.slice line (START (COMPANY_NAME CNAB_POSITIONS))
                       (Some (END (COMPANY_NAME CNAB_POSITIONS)))))))
         arquivoPath
       = lineReport (str "Q") 34 (33 + Z.of_nat (length (value nome)))
           highlighted prefix highlighted suffix
    /\ (highlighted = value nome
        <-> JS.trimStart (range 33 73 line) = range 33 73 line
            \/ value nome = []).
Proof.
  rewrite parseCnabQSegmentLine_fields, companyMessage_report.
  unfold qFields, companyReport.
  eexists _, _, _, _, _.
  split; [reflexivity|]. split; [reflexivity|].
  cbn [value]. fold (companyField line). fold (trimmedNameLength line).
  rewrite companySpan_prefix.
  destruct (trim_trimmedOf (companyField line)) as ((Hhead & _) & _).
  unfold trimmedNameLength.
  split.
  - intros Heq.
    destruct (companyField line) as [|c field] eqn:Hfield; [now left|].
    destruct (JS.isWhiteSpace c) eqn:Hc.
    + right. destruct (JS.trim (c :: field)) as [|d t] eqn:Ht;
        [reflexivity|].
      cbn [length] in Heq. rewrite hd_firstn in Heq.
      injection Heq as Hd _. subst d.
      rewrite (Hhead c t eq_refl) in Hc. discriminate.
    + left. cbn [JS.trimStart]. now rewrite Hc.
  - intros [Hstart|Hempty].
    + now apply trim_prefix.
    + now rewrite Hempty.
Qed.

Lemma includes_length (s p : jstring) :
  JS.includes s p = true -> (length p <= length s)%nat.
Proof.
  intros H. apply includes_spec in H as (l & r & ->).
  rewrite !length_app. lia.
Qed.

Lemma filter_none {A : Type} (f : A -> bool) (l : list A) :
  (forall x, f x = false) -> filter f l = [].
Proof.
  intros H. induction l as [|x l IH]; [reflexivity|].
  cbn. now rewrite H.
Qed.

(** X15. A pattern whose upper-cased form is longer than the 40 code units
    of the name field matches no line: the search reports "no company
    found", whatever the body holds. *)
Theorem X15_long_pattern_no_match (toUpperCase : jstring -> jstring)
    (cnabBody : list jstring) (companyName : jstring)
    (arquivoPath : option jstring) (w : World) :
  (40 < length (toUpperCase companyName))%nat ->
  searchByCompanyName toUpperCase cnabBody companyName arquivoPath w
  = (Return tt, appendConsole w [Out noCompanyFound]).
Proof.
  intros Hlong. rewrite searchByCompanyName_run.
  unfold companyMatches. rewrite filter_none; [reflexivity|].
  intros line.
  destruct (JS.includes (companyField line) (toUpperCase companyName)) eqn:Hi;
    [|apply andb_false_r].
  apply includes_length in Hi.
  pose proof (range_width 33 73 40 line eq_refl) as Hw.
  unfold companyField in Hi. lia.
Qed.

Lemma X15_long_pattern_no_match_witness :
  searchByCompanyName asciiUpper [qLine; pad (str "Q") 200]
    (repeat "a"%char 41) None emptyWorld
  = (Return tt, appendConsole emptyWorld [Out noCompanyFound]).
Proof.
  exact (X15_long_pattern_no_match asciiUpper [qLine; pad (str "Q") 200]
           (repeat "a"%char 41) None emptyWorld ltac:(cbn; lia)).
Defined.

(** * Beyond the claims: selection of lines *)

Lemma hasSegment_longEnough (segmentType line : jstring) :
  hasSegment segmentType line = true -> longEnough line = true.
Proof.
  intros H. apply hasSegment_length in H.
  unfold longEnough. now apply Nat.leb_le.
Qed.

Lemma filter_filter_implied {A : Type} (p q : A -> bool) (l : list A) :
  (forall x, p x = true -> q x = true) ->
  filter p (filter q l) = filter p l.
Proof.
  intros H. induction l as [|x l IH]; [reflexivity|]. cbn.
  destruct (q x) eqn:Hq; cbn.
  - now rewrite IH.
  - destruct (p x) eqn:Hp; [|exact IH].
    rewrite (H x Hp) in Hq. discriminate.
Qed.

Lemma find_filter_implied {A : Type} (p q : A -> bool) (l : list A) :
  (forall x, p x = true -> q x = true) ->
  find p (filter q l) = find p l.
Proof.
  intros H. induction l as [|x l IH]; [reflexivity|]. cbn.
  destruct (q x) eqn:Hq; cbn.
  - now rewrite IH.
  - destruct (p x) eqn:Hp; [|exact IH].
    rewrite (H x Hp) in Hq. discriminate.
Qed.

(** X16. Lines shorter than 14 code units, an empty last line among them,
    are invisible to every operation: dropping them from the input changes
    no report and no export. *)
Theorem X16_short_lines_ignored (toUpperCase : jstring -> jstring)
    (lines : list jstring) (segmentType companyName jsonPath : jstring)
    (from to : Z) (arquivoPath : option jstring) (w : World) :
  searchSegmentPositions (filter longEnough lines) segmentType from to
    arquivoPath w
  = searchSegmentPositions lines segmentType from to arquivoPath w
  /\ searchBySegmentType (filter longEnough lines) segmentType w
     = searchBySegmentType lines segmentType w
  /\ searchByCompanyName toUpperCase (filter longEnough lines) companyName
       arquivoPath w
     = searchByCompanyName toUpperCase lines companyName arquivoPath w
  /\ exportToJsonFile (filter longEnough lines) jsonPath w
     = exportToJsonFile lines jsonPath w.
Proof.
  rewrite !searchSegmentPositions_run, !searchBySegmentType_run,
    !searchByCompanyName_run, !exportToJsonFile_run.
  unfold afterExport, exportedEntries, companyMatches.
  rewrite (find_filter_implied (hasSegment segmentType) longEnough lines
             (hasSegment_longEnough segmentType)).
  rewrite (filter_filter_implied (hasSegment segmentType) longEnough lines
             (hasSegment_longEnough segmentType)).
  rewrite (filter_filter_implied (hasSegment (str "Q")) longEnough lines
             (hasSegment_longEnough (str "Q"))).
  rewrite (filter_filter_implied
             (fun line =>
                hasSegment (str "Q") line
                && JS.includes (companyField line) (toUpperCase companyName))
             longEnough lines).
  - repeat split.
  - intros line H. apply andb_true_iff in H as (H & _).
    now apply (hasSegment_longEnough (str "Q")).
Qed.

Lemma hasSegment_needs_one_char (segmentType line : jstring) :
  length segmentType <> 1%nat -> hasSegment segmentType line = false.
Proof.
  intros H. destruct (hasSegment segmentType line) eqn:Hs; [|reflexivity].
  apply hasSegment_true in Hs as (c & _ & ->). now cbn in H.
Qed.

(** X17. A segment type that is not exactly one code unit long selects no
    line: the lookup reports "no line found" and the listing "no segment
    found", whatever the body holds. *)
Theorem X17_segment_type_one_char (lines : list jstring)
    (segmentType : jstring) (from to : Z) (arquivoPath : option jstring)
    (w : World) :
  length segmentType <> 1%nat ->
  searchSegmentPositions lines segmentType from to arquivoPath w
  = (Return tt, appendConsole w [Out noLineFound])
  /\ searchBySegmentType lines segmentType w
     = (Return tt, appendConsole w [Out noSegmentFound]).
Proof.
  intros H.
  rewrite searchSegmentPositions_run, searchBySegmentType_run.
  rewrite (filter_none (hasSegment segmentType) lines
             (fun line => hasSegment_needs_one_char segmentType line H)).
  assert (Hfind : find (hasSegment segmentType) lines = None).
  { apply find_none_iff, forallb_forall. intros line _.
    now rewrite hasSegment_needs_one_char. }
  now rewrite Hfind.
Qed.

Lemma X17_segment_type_one_char_witness :
  searchSegmentPositions sampleLines (str "PQ") 1 5 None emptyWorld
  = (Return tt, appendConsole emptyWorld [Out noLineFound])
  /\ searchBySegmentType sampleLines (str "PQ") emptyWorld
     = (Return tt, appendConsole emptyWorld [Out noSegmentFound]).
Proof.
  exact (X17_segment_type_one_char sampleLines (str "PQ") 1 5 None emptyWorld
           ltac:(discriminate)).
Defined.

Lemma nth_error_span {A : Type} (n : nat) (c : A) (l : list A) :
  nth_error l n = Some c -> firstn 1 (skipn n l) = [c].
Proof.
  revert l. induction n as [|n IH]; intros [|x l] H; try discriminate.
  - now inversion H.
  - now apply IH.
Qed.

Lemma hasSegment_span (segmentType line : jstring) :
  hasSegment segmentType line = true -> range 13 14 line = segmentType.
Proof.
  intros H. apply hasSegment_true in H as (c & Hc & ->).
  unfold range. now apply nth_error_span.
Qed.

(** X18. Segment-Type Listing shows every line that carries the segment
    type, in body order, and what it highlights in each is the segment type
    itself, between the 13 code units before it and the rest of the line:
    each listed line reads as the original line. *)
Theorem X18_listing_highlights_type (cnabBody : list jstring)
    (segmentType : jstring) (w : World) :
  searchBySegmentType cnabBody segmentType w
  = (Return tt,
     appendConsole w
       [Out match filter (hasSegment segmentType) cnabBody with
            | [] => noSegmentFound
            | found =>
                segmentReport segmentType
                  (map (fun line =>
                          listedLine (firstn 13 line) segmentType
                            (skipn 14 line))
                       found)
            end])
  /\ Forall (fun line => firstn 13 line ++ segmentType ++ skipn 14 line = line)
       (filter (hasSegment segmentType) cnabBody).
Proof.
  split.
  - rewrite searchBySegmentType_run.
    assert (Hall : Forall (fun line => hasSegment segmentType line = true)
                     (filter (hasSegment segmentType) cnabBody)).
    { apply Forall_forall. intros line Hin.
      now apply filter_In in Hin as (_ & Hseg). }
    destruct (filter (hasSegment segmentType) cnabBody) as [|l found];
      [reflexivity|].
    unfold listingReport. do 5 f_equal.
    apply map_ext_in. intros line Hin.
    rewrite Forall_forall in Hall.
    now rewrite (hasSegment_span segmentType line (Hall line Hin)).
  - apply Forall_forall. intros line Hin.
    apply filter_In in Hin as (_ & Hseg).
    rewrite <- (hasSegment_span segmentType line Hseg) at 1.
    apply (@range_partition _ 13 14 line). lia.
Qed.

Lemma in_firstn_skipn {A : Type} (n m : nat) (x : A) (l : list A) :
  In x (skipn n (firstn m l)) -> In x l.
Proof.
  intros H.
  rewrite <- (firstn_skipn m l). apply in_or_app. left.
  rewrite <- (firstn_skipn n (firstn m l)). apply in_or_app. now right.
Qed.

(** X19. In a loaded document every body line is a line of the file, so
    every "Q" line a search or a listing can show is also exported. *)
Theorem X19_shown_lines_are_exported (filePath contents : jstring)
    (w : World) :
  readable w filePath = Return contents ->
  exists doc : Document,
    readCnabFile filePath w = (Return doc, w)
    /\ incl (body doc) (full doc)
    /\ incl (map parseCnabQSegmentLine
               (filter (hasSegment (str "Q")) (body doc)))
            (exportedEntries (full doc)).
Proof.
  intros Hread. exists (documentOf contents).
  split; [now apply readCnabFile_document|].
  assert (Hincl : incl (body (documentOf contents))
                    (full (documentOf contents))).
  { intros line Hin. unfold documentOf in *. cbn [body full] in *.
    eapply in_firstn_skipn. exact Hin. }
  split; [exact Hincl|].
  unfold exportedEntries. apply incl_map.
  intros line Hin. apply filter_In in Hin as (Hin & Hq).
  apply filter_In. split; [now apply Hincl | exact Hq].
Qed.

Lemma X19_shown_lines_are_exported_witness :
  exists doc : Document,
    readCnabFile (str "cnab.rem")
      (worldWithFile (JS.join sampleLines [nl]))
    = (Return doc, worldWithFile (JS.join sampleLines [nl]))
    /\ incl (body doc) (full doc)
    /\ incl (map parseCnabQSegmentLine
               (filter (hasSegment (str "Q")) (body doc)))
            (exportedEntries (full doc)).
Proof.
  exact (X19_shown_lines_are_exported (str "cnab.rem")
           (JS.join sampleLines [nl])
           (worldWithFile (JS.join sampleLines [nl])) eq_refl).
Defined.

(** X20. The command line is case-insensitive in the segment type and in
    the company name: two spellings with the same upper-case form give the
    same run. *)
Theorem X20_case_insensitive_options (toUpperCase : jstring -> jstring)
    (from to : option Z) (segmento1 segmento2 nome1 nome2 : jstring)
    (buscar : bool) (json arquivo : option jstring) (cnabData : Document)
    (w : World) :
  segmento1 <> [] -> segmento2 <> [] -> nome1 <> [] -> nome2 <> [] ->
  toUpperCase segmento1 = toUpperCase segmento2 ->
  toUpperCase nome1 = toUpperCase nome2 ->
  processCommandArguments toUpperCase
    {| Options.from := from;
       Options.to := to;
       Options.segmento := Some segmento1;
       Options.buscar := buscar;
       Options.nome := Some nome1;
       Options.json := json;
       Options.arquivo := arquivo |}
    cnabData w
  = processCommandArguments toUpperCase
      {| Options.from := from;
         Options.to := to;
         Options.segmento := Some segmento2;
         Options.buscar := buscar;
         Options.nome := Some nome2;
         Options.json := json;
         Options.arquivo := arquivo |}
      cnabData w.
Proof.
  intros Hs1 Hs2 Hn1 Hn2 Hseg Hnome.
  rewrite !processCommandArguments_run.
  unfold exportStep, queryEntries, truthyOption.
  cbn [Options.from Options.to Options.segmento Options.buscar Options.nome
       Options.json].
  now rewrite (truthyString_true _ Hs1), (truthyString_true _ Hs2),
    (truthyString_true _ Hn1), (truthyString_true _ Hn2), Hseg, Hnome.
Qed.

Lemma X20_case_insensitive_options_witness :
  processCommandArguments asciiUpper
    {| Options.from := Some 34;
       Options.to := Some 47;
       Options.segmento := Some (str "q");
       Options.buscar := true;
       Options.nome := Some (str "Acme");
       Options.json := None;
       Options.arquivo := None |}
    sampleDocument emptyWorld
  = processCommandArguments asciiUpper
      {| Options.from := Some 34;
         Options.to := Some 47;
         Options.segmento := Some (str "Q");
         Options.buscar := true;
         Options.nome := Some (str "aCME");
         Options.json := None;
         Options.arquivo := None |}
      sampleDocument emptyWorld.
Proof.
  exact (X20_case_insensitive_options asciiUpper (Some 34) (Some 47)
           (str "q") (str "Q") (str "Acme") (str "aCME") true None None
           sampleDocument emptyWorld
           ltac:(discriminate) ltac:(discriminate) ltac:(discriminate)
           ltac:(discriminate) eq_refl eq_refl).
Defined.
